(** * YouTube-Local-Chat-Replayer: the chat-replay pipeline of the script

    A shallow embedding of the script of the replayer, [processChatData],
    [processMessageRuns] and [displayChatMessages], in its three revisions
    (the first, src/script.js, has the code of [processChatData] inside the
    [onload] handler of [handleFileSelect]; the revisions differ in message
    literals and in the head of the summary), and the properties the
    specification states about it.

    - JavaScript strings are sequences of UTF-16 code units.
    - Values are what [JSON.parse] builds, plus [undefined], which property
      reads produce.
    - The DOM is a tree of text nodes and elements; the functions that
      mutate [chatContainer] or a target element thread its child list.
    - An exception is a [Throw] result; [processChatData] catches it.
    - What the script takes from its host (numbers, [JSON.parse], the text of
      engine errors, what [img.src] reads back) is a field of the class
      [Host]; a property holds for every host unless it names the host of
      a sample. *)

From Stdlib Require Import List Bool Arith NArith ZArith Lia String Ascii.
From Stdlib Require Import DecimalString Permutation.
Import ListNotations.

Set Implicit Arguments.
Set Warnings "-register-all".

(** ** Strings *)

Module JsString.

(** A string is its sequence of UTF-16 code units. *)
Definition jstring := list N.

Definition lit (s : string) : jstring :=
  map N_of_ascii (list_ascii_of_string s).

(** A literal of the script that holds double quotes, written here with
    single quotes in their place. *)
Definition litq (s : string) : jstring :=
  map (fun c => if N.eqb c 39 then 34%N else c) (lit s).

Fixpoint eqb (a b : jstring) : bool :=
  match a, b with
  | [], [] => true
  | x :: a', y :: b' => N.eqb x y && eqb a' b'
  | _, _ => false
  end.

(** [`${n}`] for a counter or a length. *)
Definition of_nat (n : nat) : jstring :=
  lit (NilZero.string_of_uint (Nat.to_uint n)).

(** WhiteSpace and LineTerminator of ECMAScript: what [trim] strips and
    what [\s] matches. *)
Definition is_whitespace (c : N) : bool :=
  match c with
  | 9 | 10 | 11 | 12 | 13 | 32 | 160 | 5760 | 8232 | 8233 | 8239 | 8287
  | 12288 | 65279 => true
  | _ => (8192 <=? c) && (c <=? 8202)
  end%N.

Fixpoint trimStart (s : jstring) : jstring :=
  match s with
  | c :: r => if is_whitespace c then trimStart r else s
  | [] => []
  end.

Definition trimEnd (s : jstring) : jstring := rev (trimStart (rev s)).

(** [s.trim()] *)
Definition trim (s : jstring) : jstring := trimEnd (trimStart s).

(** [s.startsWith(c)] and [s.endsWith(c)] for a one-unit string [c]. *)
Definition startsWith (c : N) (s : jstring) : bool :=
  match s with
  | x :: _ => N.eqb x c
  | [] => false
  end.

Definition endsWith (c : N) (s : jstring) : bool := startsWith c (rev s).

(** The conversion of a string to a USVString, which the [src] of an image
    takes: a surrogate that is no half of a pair becomes U+FFFD. *)
Definition is_lead_surrogate (c : N) : bool :=
  ((55296 <=? c) && (c <=? 56319))%N.

Definition is_trail_surrogate (c : N) : bool :=
  ((56320 <=? c) && (c <=? 57343))%N.

Fixpoint toUSVString (s : jstring) : jstring :=
  match s with
  | [] => []
  | c :: r =>
      if is_lead_surrogate c then
        match r with
        | d :: r' =>
            if is_trail_surrogate d then c :: d :: toUSVString r'
            else 65533%N :: toUSVString r
        | [] => [65533%N]
        end
      else if is_trail_surrogate c then 65533%N :: toUSVString r
      else c :: toUSVString r
  end.

Definition lbracket : N := 91.
Definition rbracket : N := 93.
Definition lbrace : N := 123.
Definition rbrace : N := 125.

End JsString.
Import JsString.

(** ** The repair of concatenated objects

    The preprocessing block of [processChatData] (src/script.js, lines 36
    to 47, inside [reader.onload]). *)

Module Repair.

(** The regular expression [}\s*{] tried right after a [}]: the number of
    whitespace units before the [{] when it matches. [\s*] is greedy and
    [{] is no whitespace, so there is one way to match. *)
Fixpoint matchSeparator (s : jstring) : option nat :=
  match s with
  | [] => None
  | c :: r =>
      if N.eqb c lbrace then Some 0
      else if is_whitespace c then option_map S (matchSeparator r)
      else None
  end.

(** [s.replace(/}\s*{/g, "},{")]: scanning from the left, a match is
    replaced and the scan goes on after it ([consumed] counts the units
    of the current match still to pass), any other unit is copied. *)
Fixpoint replaceFrom (consumed : nat) (s : jstring) : jstring :=
  match s with
  | [] => []
  | c :: r =>
      match consumed with
      | S k => replaceFrom k r
      | 0 =>
          if N.eqb c rbrace then
            match matchSeparator r with
            | Some n => lit "},{" ++ replaceFrom (S n) r
            | None => c :: replaceFrom 0 r
            end
          else c :: replaceFrom 0 r
      end
  end.

Definition replaceSeparators (s : jstring) : jstring := replaceFrom 0 s.

Definition isLikelyValidArray (processedText : jstring) : bool :=
  startsWith lbracket processedText && endsWith rbracket processedText.

(** The two statements of the [if (!isLikelyValidArray)] block. *)
Definition repair (processedText : jstring) : jstring :=
  lit "[" ++ replaceSeparators processedText ++ lit "]".

(** The text handed to [JSON.parse]. *)
Definition preprocess (processedText : jstring) : jstring :=
  if isLikelyValidArray processedText then processedText
  else repair processedText.

End Repair.
Import Repair.

(** ** Values, errors and the host *)

Section Values.

Variable number : Type.

(** What [JSON.parse] builds, and [undefined]. An object is the list of its
    own properties; [JSON.parse] leaves one entry per key. *)
Inductive value :=
| VUndefined
| VNull
| VBool (b : bool)
| VNum (n : number)
| VStr (s : jstring)
| VArr (elements : list value)
| VObj (fields : list (jstring * value)).

End Values.

Arguments VUndefined {number}.
Arguments VNull {number}.
Arguments VBool {number} b.
Arguments VStr {number} s.

(** The three ways the engine raises a TypeError in this script: a
    property read of null or undefined, a call of what is no function, and
    ToString of an object that neither its [toString] nor its [valueOf]
    turns into a primitive. *)
Inductive type_error :=
| ReadOfNullish (property : jstring)
| NotAFunction (property : jstring)
| NoPrimitiveValue.

Inductive js_error :=
| SyntaxError (message : jstring)
| TypeError (cause : type_error)
| Error (message : jstring).

Inductive result (A : Type) :=
| Ok (a : A)
| Throw (e : js_error).

Arguments Ok {A} a.
Arguments Throw {A} e.

Definition bind {A B : Type} (r : result A) (k : A -> result B) : result B :=
  match r with
  | Ok a => k a
  | Throw e => Throw e
  end.

Notation "'let*' x ':=' r 'in' k" := (bind r (fun x => k))
  (at level 10, x name, r at level 100, k at level 200).

(** [l.forEach(callback)], the callback updating a state and possibly
    throwing. *)
Fixpoint forEach {A S : Type} (callback : A -> S -> result S) (l : list A)
  (s : S) : result S :=
  match l with
  | [] => Ok s
  | x :: r => let* s' := callback x s in forEach callback r s'
  end.

(** What the script takes from the engine and the document. A number is
    seen through ToBoolean and ToString only. [JSON_parse] gives the message
    of the SyntaxError when the text is no JSON. [img_src_readback s] is
    what [img.src] reads when the [src] attribute holds [s], the attribute
    resolved against the URL of the document; the script tests it for
    emptiness only. *)
Class Host (number : Type) := {
  number_truthy : number -> bool;
  number_toString : number -> jstring;
  JSON_parse : jstring -> jstring + value number;
  type_error_message : type_error -> jstring;
  img_src_readback : jstring -> jstring
}.

(** ** The document *)

Inductive node :=
| Text (data : jstring)
| Element (tagName : jstring) (classList : list jstring)
    (attributes : list (jstring * jstring)) (childNodes : list node).

(** [chatContainer]: its markup after [innerHTML = ...], or its children. *)
Inductive container_state :=
| InnerHTML (markup : jstring)
| Children (nodes : list node).

Definition is_empty (s : jstring) : bool :=
  match s with
  | [] => true
  | _ :: _ => false
  end.

(** [element.textContent = s] *)
Definition set_textContent (s : jstring) : list node :=
  if is_empty s then [] else [Text s].

Definition displayError (message : jstring) : container_state :=
  InnerHTML (litq "<p class='error'>" ++ message ++ lit "</p>").

(** The three revisions of the script: src/script.js reads a local file,
    the second loads from a URL too, the third shows a progress bar. *)
Inductive revision :=
| LocalFile
| UrlLoad
| ProgressBar.

(** The four categories the specification sorts an action into. *)
Inductive category :=
| Displayed
| SkippedTicker
| SkippedUnhandledItem
| SkippedUnhandledAction.

(** The four counters of [displayChatMessages]. *)
Record counters := {
  messageCount : nat;
  skippedTickerCount : nat;
  skippedOtherActionCount : nat;
  skippedOtherItemCount : nat
}.

(** The sum the conservation law is about. *)
Definition total (c : counters) : nat :=
  messageCount c + skippedTickerCount c + skippedOtherItemCount c +
  skippedOtherActionCount c.

(** The state the callback of [actions.forEach] updates: the counters and
    the children of [chatContainer]. *)
Record pass := {
  counts : counters;
  chat : list node
}.

(** What [displayChatMessages] leaves: the container, and the counters at
    its return. *)
Record display := {
  container : container_state;
  final : counters
}.

(** ** The operators of the language the script uses *)

Section Script.

Context {number : Type} {host : Host number}.

Variable rev : revision.

#[local] Abbreviation value := (value number).

(** ToBoolean *)
Definition truthy (v : value) : bool :=
  match v with
  | VUndefined | VNull => false
  | VBool b => b
  | VNum n => number_truthy n
  | VStr s => negb (is_empty s)
  | VArr _ | VObj _ => true
  end.

(** [a || b] *)
Definition or_else (a b : value) : value := if truthy a then a else b.

Fixpoint lookup (key : jstring) (fields : list (jstring * value)) : value :=
  match fields with
  | [] => VUndefined
  | (k, v) :: rest => if eqb k key then v else lookup key rest
  end.

(** A named property of a value that is neither null nor undefined. None
    of the names the script reads is a property of a primitive's or an
    array's prototype, so only objects answer. *)
Definition own (v : value) (key : jstring) : value :=
  match v with
  | VObj fields => lookup key fields
  | _ => VUndefined
  end.

(** [v.key] *)
Definition member (v : value) (key : string) : result value :=
  match v with
  | VUndefined | VNull => Throw (TypeError (ReadOfNullish (lit key)))
  | _ => Ok (own v (lit key))
  end.

(** [v?.key] *)
Definition opt_member (v : value) (key : string) : value :=
  match v with
  | VUndefined | VNull => VUndefined
  | _ => own v (lit key)
  end.

(** The element at index 0 of a value that is neither null nor undefined. *)
Definition first (v : value) : value :=
  match v with
  | VArr (x :: _) => x
  | VStr (c :: _) => VStr [c]
  | VObj fields => lookup (lit "0") fields
  | _ => VUndefined
  end.

(** [v[0]] *)
Definition index0 (v : value) : result value :=
  match v with
  | VUndefined | VNull => Throw (TypeError (ReadOfNullish (lit "0")))
  | _ => Ok (first v)
  end.

(** [v?.[0]] *)
Definition opt_index0 (v : value) : value :=
  match v with
  | VUndefined | VNull => VUndefined
  | _ => first v
  end.

(** Whether an object has [key] among its own properties, whatever the
    value. *)
Fixpoint hasOwnProperty (key : jstring) (fields : list (jstring * value))
  : bool :=
  match fields with
  | [] => false
  | (k, _) :: rest => eqb k key || hasOwnProperty key rest
  end.

(** ToString, as the assignments to [src], [alt], [title] and
    [textContent], [createTextNode] and the template literal apply it. An
    array joins its elements with a comma from left to right, null and
    undefined elements giving the empty string. An object goes through
    [toString] and then [valueOf]: without an own [toString] it inherits
    the one that answers [object Object]; an own [toString] is a JSON value
    and no function, so it is passed over, the inherited [valueOf] returns
    the object itself, and the conversion throws. *)
Fixpoint toString (v : value) : result jstring :=
  match v with
  | VUndefined => Ok (lit "undefined")
  | VNull => Ok (lit "null")
  | VBool true => Ok (lit "true")
  | VBool false => Ok (lit "false")
  | VNum n => Ok (number_toString n)
  | VStr s => Ok s
  | VArr elements =>
      (fix join (l : list value) : result jstring :=
         match l with
         | [] => Ok []
         | x :: r =>
             let* element :=
               match x with
               | VUndefined | VNull => Ok []
               | _ => toString x
               end in
             match r with
             | [] => Ok element
             | _ :: _ => let* rest := join r in Ok (element ++ lit "," ++ rest)
             end
         end) elements
  | VObj fields =>
      if hasOwnProperty (lit "toString") fields
      then Throw (TypeError NoPrimitiveValue)
      else Ok (lit "[object Object]")
  end.

(** [parts.join(separator)] on strings *)
Fixpoint join (separator : jstring) (parts : list jstring) : jstring :=
  match parts with
  | [] => []
  | [x] => x
  | x :: r => x ++ separator ++ join separator r
  end.

(** What [flatMap] adds for a value its callback returns: the elements of
    an array, any other value as one element. *)
Definition spliced (v : value) : list value :=
  match v with
  | VArr elements => elements
  | _ => [v]
  end.

(** [array.flatMap(callback)] *)
Definition flatMap (callback : value -> value) (array : list value)
  : list value :=
  flat_map (fun x => spliced (callback x)) array.

(** [v.forEach(callback)] where [v] may be any value that is neither null
    nor undefined: only an array has the method. *)
Definition call_forEach {S : Type} (v : value)
  (callback : value -> S -> result S) (s : S) : result S :=
  match v with
  | VArr l => forEach callback l s
  | _ => Throw (TypeError (NotAFunction (lit "forEach")))
  end.

(** ** processMessageRuns (src/script.js, lines 99 to 131) *)

Definition chatEmoji (src altText : jstring) : node :=
  Element (lit "img") [lit "chat-emoji"]
    [(lit "src", src); (lit "alt", altText); (lit "title", altText)] [].

(** The branch of a run with an emoji. The value for [img.src] is
    converted first, and the attribute takes it as a USVString; then
    [altText] is converted for [img.alt]; [img.title] and the template
    literal convert the same value again, to the same string. The
    [onerror] handler runs on a later event and is no part of the pass. *)
Definition showEmoji (emoji : value) (target : list node)
  : result (list node) :=
  let* image := member emoji "image" in
  let* src :=
    toString (or_else (opt_member
                         (opt_index0 (opt_member image "thumbnails"))
                         "url")
                      (VStr [])) in
  let* accessibility := member emoji "accessibility" in
  let* shortcuts := member emoji "shortcuts" in
  let altText :=
    or_else (opt_member (opt_member accessibility "accessibilityData")
               "label")
            (or_else (opt_index0 shortcuts) (VStr (lit "emoji"))) in
  let* alt := toString altText in
  if negb (is_empty (img_src_readback (toUSVString src)))
  then Ok (target ++ [chatEmoji (toUSVString src) alt])
  else Ok (target ++ [Text (lit "[" ++ alt ++ lit "]")]).

(** The callback of [runs.forEach]; [target] is the child list of
    [targetElement]. *)
Definition processRun (run : value) (target : list node)
  : result (list node) :=
  let* text := member run "text" in
  if truthy text then
    let* data := toString text in
    Ok (target ++ [Text data])
  else
    let* emoji := member run "emoji" in
    if truthy emoji then showEmoji emoji target else Ok target.

(** Anything but an array clears the target, also one that has children
    already. *)
Definition processMessageRuns (runs : value) (target : list node)
  : result (list node) :=
  match runs with
  | VArr l => forEach processRun l target
  | _ => Ok (set_textContent [])
  end.

(** ** displayChatMessages (src/script.js, lines 137 to 313) *)

Definition authorBadge (src alt title : jstring) : node :=
  Element (lit "img") [lit "author-badge"]
    [(lit "src", src); (lit "alt", alt); (lit "title", title)] [].

(** The callback of [authorBadges.forEach]; [header] is the child list of
    [headerDiv]. *)
Definition appendBadge (badgeItem : value) (header : list node)
  : result (list node) :=
  let badgeRenderer := opt_member badgeItem "liveChatAuthorBadgeRenderer" in
  if truthy (opt_member
               (opt_index0
                  (opt_member (opt_member badgeRenderer "customThumbnail")
                     "thumbnails"))
               "url")
  then
    let* customThumbnail := member badgeRenderer "customThumbnail" in
    let* thumbnails := member customThumbnail "thumbnails" in
    let* thumbnail := index0 thumbnails in
    let* url := member thumbnail "url" in
    let* src := toString url in
    let* altTooltip := member badgeRenderer "tooltip" in
    let* alt := toString (or_else altTooltip (VStr (lit "Badge"))) in
    let* titleTooltip := member badgeRenderer "tooltip" in
    let* title := toString (or_else titleTooltip (VStr (lit "Badge"))) in
    Ok (header ++ [authorBadge (toUSVString src) alt title])
  else Ok header.

(** Section 2b of the callback: the children of [bodyDiv]. *)
Definition messageBody (textRenderer memberRenderer : value)
  : result (list node) :=
  if truthy textRenderer then
    let* message := member textRenderer "message" in
    processMessageRuns (opt_member message "runs") []
  else if truthy memberRenderer then
    let* headerPrimaryText := member memberRenderer "headerPrimaryText" in
    let* body1 :=
      if truthy (opt_member headerPrimaryText "runs") then
        let* primaryText := member memberRenderer "headerPrimaryText" in
        let* runs := member primaryText "runs" in
        let* primaryHeader := processMessageRuns runs [] in
        Ok [Element (lit "span") [lit "membership-header-primary"] []
              primaryHeader]
      else Ok [] in
    let* headerSubtext := member memberRenderer "headerSubtext" in
    let* body2 :=
      if truthy (opt_member headerSubtext "simpleText") then
        let* subtext := member memberRenderer "headerSubtext" in
        let* simpleText := member subtext "simpleText" in
        let* text := toString simpleText in
        Ok (body1 ++
            [Element (lit "span") [lit "membership-header-subtext"] []
               (set_textContent text)])
      else Ok body1 in
    let* message := member memberRenderer "message" in
    if truthy (opt_member message "runs") then
      let* memberMessage := member memberRenderer "message" in
      let* runs := member memberMessage "runs" in
      processMessageRuns runs body2
    else Ok body2
  else Ok [].

Definition authorImg (src : jstring) : node :=
  Element (lit "img") [lit "author-photo"]
    [(lit "src", src); (lit "alt", lit "Author")] [].

Definition timeSpan (timestampText : jstring) : node :=
  Element (lit "span") [lit "timestamp"] [] (set_textContent timestampText).

Definition nameSpan (authorNameText : jstring) : node :=
  Element (lit "span") [lit "author-name"] []
    (set_textContent authorNameText).

Definition messageElement (messageTypeClass : jstring) (photo : node)
  (header body : list node) : node :=
  Element (lit "div")
    (lit "chat-message" ::
     (if is_empty messageTypeClass then [] else [messageTypeClass]))
    []
    [photo;
     Element (lit "div") [lit "message-content"] []
       [Element (lit "div") [lit "message-header"] [] header;
        Element (lit "div") [lit "message-body"] [] body]].

(** The callback from the common data extraction to the finished
    [messageElement]: the photo, the header with time, name and badges, and
    the body, built in this order. The photo URL, the time and the name are
    converted to strings before [authorBadges] is looped over; it is looped
    over with [forEach] whatever it is, so a truthy value that is no array
    throws. *)
Definition buildMessage (textRenderer memberRenderer rendererData : value)
  (messageTypeClass : jstring) : result node :=
  let* authorPhoto := member rendererData "authorPhoto" in
  let authorPhotoUrl :=
    or_else (opt_member (opt_index0 (opt_member authorPhoto "thumbnails"))
               "url")
            (VStr (lit "placeholder.png")) in
  let* timestamp := member rendererData "timestampText" in
  let timestampText :=
    or_else (opt_member timestamp "simpleText") (VStr (lit "[no time]")) in
  let* authorName := member rendererData "authorName" in
  let authorNameText :=
    or_else (opt_member authorName "simpleText")
            (VStr (lit "[unknown author]")) in
  let* badges := member rendererData "authorBadges" in
  let authorBadges := or_else badges (VArr []) in
  let* photoSrc := toString authorPhotoUrl in
  let* timeText := toString timestampText in
  let* nameText := toString authorNameText in
  let* header :=
    call_forEach authorBadges appendBadge
      [timeSpan timeText; nameSpan nameText] in
  let* body := messageBody textRenderer memberRenderer in
  Ok (messageElement messageTypeClass (authorImg (toUSVString photoSrc))
        header body).

Definition countMessage (c : counters) : counters :=
  {| messageCount := S (messageCount c);
     skippedTickerCount := skippedTickerCount c;
     skippedOtherActionCount := skippedOtherActionCount c;
     skippedOtherItemCount := skippedOtherItemCount c |}.

Definition countTicker (c : counters) : counters :=
  {| messageCount := messageCount c;
     skippedTickerCount := S (skippedTickerCount c);
     skippedOtherActionCount := skippedOtherActionCount c;
     skippedOtherItemCount := skippedOtherItemCount c |}.

Definition countOtherAction (c : counters) : counters :=
  {| messageCount := messageCount c;
     skippedTickerCount := skippedTickerCount c;
     skippedOtherActionCount := S (skippedOtherActionCount c);
     skippedOtherItemCount := skippedOtherItemCount c |}.

Definition countOtherItem (c : counters) : counters :=
  {| messageCount := messageCount c;
     skippedTickerCount := skippedTickerCount c;
     skippedOtherActionCount := skippedOtherActionCount c;
     skippedOtherItemCount := S (skippedOtherItemCount c) |}.

(** [messageCount++] and all that follows it in the callback. *)
Definition showMessage (textRenderer memberRenderer rendererData : value)
  (messageTypeClass : jstring) (st : pass) : result pass :=
  let counted := countMessage (counts st) in
  let* element :=
    buildMessage textRenderer memberRenderer rendererData messageTypeClass in
  Ok {| counts := counted; chat := chat st ++ [element] |}.

(** The callback of [actions.forEach]. *)
Definition processAction (action : value) (st : pass) : result pass :=
  let addChatItemAction := opt_member action "addChatItemAction" in
  let addTickerItemAction :=
    opt_member action "addLiveChatTickerItemAction" in
  if truthy addChatItemAction then
    let* item := member addChatItemAction "item" in
    if negb (truthy item) then
      Ok {| counts := countOtherAction (counts st); chat := chat st |}
    else
      let* textRenderer := member item "liveChatTextMessageRenderer" in
      let* memberRenderer := member item "liveChatMembershipItemRenderer" in
      if truthy textRenderer then
        showMessage textRenderer memberRenderer textRenderer [] st
      else if truthy memberRenderer then
        showMessage textRenderer memberRenderer memberRenderer
          (lit "chat-membership-message") st
      else Ok {| counts := countOtherItem (counts st); chat := chat st |}
  else if truthy addTickerItemAction then
    Ok {| counts := countTicker (counts st); chat := chat st |}
  else Ok {| counts := countOtherAction (counts st); chat := chat st |}.

Definition zero_counters : counters :=
  {| messageCount := 0;
     skippedTickerCount := 0;
     skippedOtherActionCount := 0;
     skippedOtherItemCount := 0 |}.

(** The entries pushed on [skippedMessages]. *)
Definition skippedMessages (c : counters) : list jstring :=
  (if 0 <? skippedTickerCount c
   then [of_nat (skippedTickerCount c) ++ lit " ticker"] else []) ++
  (if 0 <? skippedOtherItemCount c
   then [of_nat (skippedOtherItemCount c) ++ lit " unhandled item types"]
   else []) ++
  (if 0 <? skippedOtherActionCount c
   then [of_nat (skippedOtherActionCount c) ++ lit " unhandled action types"]
   else []).

(** [summaryText] before the breakdown is added. *)
Definition summaryHead (c : counters) (actionsLength : nat) : jstring :=
  match rev with
  | LocalFile =>
      if (messageCount c =? 0) && (0 <? actionsLength)
      then lit "Processed " ++ of_nat actionsLength ++
           lit " actions, but found no displayable messages."
      else if actionsLength =? 0
      then lit "No chat actions found in the file data."
      else lit "Displayed " ++ of_nat (messageCount c) ++ lit " messages."
  | _ =>
      if (messageCount c =? 0) &&
         ((0 <? skippedTickerCount c) || (0 <? skippedOtherActionCount c) ||
          (0 <? skippedOtherItemCount c))
      then lit "Processed data, but found no displayable messages."
      else if (messageCount c =? 0) && (actionsLength =? 0)
      then lit "No chat actions found in the provided data."
      else lit "Displayed " ++ of_nat (messageCount c) ++ lit " messages."
  end.

Definition summaryText (c : counters) (actionsLength : nat) : jstring :=
  if 0 <? List.length (skippedMessages c)
  then summaryHead c actionsLength ++
       lit " (Skipped: " ++ join (lit ", ") (skippedMessages c) ++ lit ")"
  else summaryHead c actionsLength.

Definition summary (c : counters) (actionsLength : nat) : node :=
  Element (lit "p") [] [] (set_textContent (summaryText c actionsLength)).

Definition noActionsMarkup : jstring :=
  match rev with
  | ProgressBar => lit "<p>No chat actions found in the provided data.</p>"
  | _ => lit "<p>No chat actions found in the file data.</p>"
  end.

Definition displayChatMessages (actions : list value) : result display :=
  if List.length actions =? 0 then
    Ok {| container := InnerHTML noActionsMarkup; final := zero_counters |}
  else
    let* st :=
      forEach processAction actions
        {| counts := zero_counters; chat := [] |} in
    Ok {| container :=
            Children (summary (counts st) (List.length actions) :: chat st);
          final := counts st |}.

(** ** processChatData (src/script.js, lines 24 to 84, [reader.onload]) *)

(** The callback of [chatDataArray.flatMap], and its two places. *)
Definition replayActions (item : value) : value :=
  opt_member (opt_member item "replayChatItemAction") "actions".

Definition continuationActions (item : value) : value :=
  opt_member
    (opt_member (opt_member item "continuationContents")
       "liveChatContinuation")
    "actions".

Definition actionsOf (item : value) : value :=
  or_else (or_else (replayActions item) (continuationActions item))
    (VArr []).

Definition extractActions (chatDataArray : list value) : list value :=
  flatMap actionsOf chatDataArray.

Definition parse (text : jstring) : result value :=
  match JSON_parse text with
  | inl message => Throw (SyntaxError message)
  | inr v => Ok v
  end.

(** The [try] block from [JSON.parse] on. [chatDataArray.length] is read
    for the log before the array test. *)
Definition parseAndDisplay (processedText : jstring) : result display :=
  let* chatDataArray := parse processedText in
  let* _ :=
    match chatDataArray with
    | VUndefined | VNull => Throw (TypeError (ReadOfNullish (lit "length")))
    | _ => Ok tt
    end in
  let* chatActions :=
    match chatDataArray with
    | VArr items => Ok (extractActions items)
    | _ => Throw (Error (lit "Internal error: Processed data is not an array."))
    end in
  displayChatMessages chatActions.

Definition error_message (e : js_error) : jstring :=
  match e with
  | SyntaxError message => message
  | TypeError cause => type_error_message cause
  | Error message => message
  end.

(** What the revision calls its input in the messages. *)
Definition inputNoun : jstring :=
  match rev with
  | LocalFile => lit "file"
  | _ => lit "data"
  end.

(** The [catch] block. *)
Definition reportError (e : js_error) : container_state :=
  let userMessage :=
    match e with
    | SyntaxError message =>
        lit "Error parsing JSON: " ++ message ++ lit ". The " ++ inputNoun ++
        lit " might be corrupted or have an unexpected format."
    | _ =>
        lit "Error processing " ++ inputNoun ++ lit ": " ++
        error_message e ++ lit "."
    end in
  displayError (userMessage ++ lit " Check console for more details.").

Definition emptyInputMessage : jstring :=
  match rev with
  | LocalFile => lit "File is empty."
  | _ => lit "Received data is empty."
  end.

(** [try { ... } catch (error) { ... }] around the display. *)
Definition tryCatch (attempt : result display) : container_state :=
  match attempt with
  | Ok shown => container shown
  | Throw e => reportError e
  end.

(** [processChatData(rawText)], in src/script.js the [onload] handler of
    the reader: the state it leaves [chatContainer] in. *)
Definition processChatData (rawText : jstring) : container_state :=
  let processedText := trim rawText in
  if is_empty processedText then displayError emptyInputMessage
  else tryCatch (parseAndDisplay (preprocess processedText)).

(** [altText] of an emoji, the value before any conversion: the
    accessibility label, else the first shortcut, else the word emoji. *)
Definition emojiAltText (emoji : value) : value :=
  or_else
    (opt_member
       (opt_member (opt_member emoji "accessibility") "accessibilityData")
       "label")
    (or_else (opt_index0 (opt_member emoji "shortcuts"))
       (VStr (lit "emoji"))).

(** The value [img.src] is set to for an emoji. *)
Definition emojiSrc (emoji : value) : value :=
  or_else
    (opt_member
       (opt_index0 (opt_member (opt_member emoji "image") "thumbnails"))
       "url")
    (VStr []).

(** [rendererData] of an action whose item is recognized. *)
Definition rendererDataOf (action : value) : value :=
  let item := opt_member (opt_member action "addChatItemAction") "item" in
  or_else (opt_member item "liveChatTextMessageRenderer")
    (opt_member item "liveChatMembershipItemRenderer").


(** The nodes a sequence of actions adds to [chatContainer]. *)
Definition messagesOf (actions : list value) : result (list node) :=
  let* st :=
    forEach processAction actions
      {| counts := zero_counters; chat := [] |} in
  Ok (chat st).

(** ** The classification in the words of the specification

    Section 4.3 of the specification, to compare [processAction] with: an
    add-chat-item action without item is an unhandled action, one with a
    text or membership renderer is displayed, one with any other item is an
    unhandled item; a ticker action is a ticker; the rest are unhandled
    actions. What is there and what is missing is told by truthiness. *)
Definition spec_category (action : value) : category :=
  let addChatItem := opt_member action "addChatItemAction" in
  if truthy addChatItem then
    let item := opt_member addChatItem "item" in
    if truthy item then
      if truthy (opt_member item "liveChatTextMessageRenderer") ||
         truthy (opt_member item "liveChatMembershipItemRenderer")
      then Displayed
      else SkippedUnhandledItem
    else SkippedUnhandledAction
  else if truthy (opt_member action "addLiveChatTickerItemAction")
  then SkippedTicker
  else SkippedUnhandledAction.

Definition count_in (k : category) (c : counters) : counters :=
  match k with
  | Displayed => countMessage c
  | SkippedTicker => countTicker c
  | SkippedUnhandledItem => countOtherItem c
  | SkippedUnhandledAction => countOtherAction c
  end.

Definition tally (kinds : list category) : counters :=
  fold_left (fun c k => count_in k c) kinds zero_counters.

(** The breakdown in the words of the specification: the skip categories
    with a count that is not zero, each as count and label. *)
Definition spec_breakdown (c : counters) : list jstring :=
  map (fun entry => of_nat (fst entry) ++ snd entry)
    (filter (fun entry => negb (fst entry =? 0))
       [(skippedTickerCount c, lit " ticker");
        (skippedOtherItemCount c, lit " unhandled item types");
        (skippedOtherActionCount c, lit " unhandled action types")]).

End Script.

(** ** A host to run the script on *)

Module Sample.

#[local] Open Scope string_scope.

(** Integer-valued numbers. *)
Definition z_toString (z : Z) : jstring :=
  lit (NilZero.string_of_int (Z.to_int z)).

Definition str (s : string) : value Z := VStr (lit s).

Definition obj (fields : list (string * value Z)) : value Z :=
  VObj (map (fun kv => (lit (fst kv), snd kv)) fields).

(** One text message, one ticker entry and one paid message. *)
Definition textMessage : value Z :=
  obj [("addChatItemAction",
        obj [("item",
              obj [("liveChatTextMessageRenderer",
                    obj [("message",
                          obj [("runs", VArr [obj [("text", str "hi")]])]);
                         ("authorName", obj [("simpleText", str "Ann")]);
                         ("timestampText",
                          obj [("simpleText", str "0:01")])])])])].

Definition tickerEntry : value Z :=
  obj [("addLiveChatTickerItemAction", obj [("durationSec", str "5")])].

Definition paidMessage : value Z :=
  obj [("addChatItemAction",
        obj [("item", obj [("liveChatPaidMessageRenderer", obj [])])])].

Definition threeActions : list (value Z) :=
  [textMessage; tickerEntry; paidMessage].

Definition topItem : value Z :=
  obj [("replayChatItemAction", obj [("actions", VArr threeActions)])].

Definition dump : value Z := VArr [topItem].

(** An item that holds its actions in the continuation place, and one that
    holds actions in both places. *)
Definition continuationItem : value Z :=
  obj [("continuationContents",
        obj [("liveChatContinuation",
              obj [("actions", VArr [tickerEntry; textMessage])])])].

Definition bothPlacesItem : value Z :=
  obj [("replayChatItemAction", obj [("actions", VArr [textMessage])]);
       ("continuationContents",
        obj [("liveChatContinuation",
              obj [("actions", VArr [paidMessage])])])].

Definition dumpText : jstring :=
  litq "[{'replayChatItemAction':{'actions':[{'addChatItemAction':{'item':{'liveChatTextMessageRenderer':{'message':{'runs':[{'text':'hi'}]},'authorName':{'simpleText':'Ann'},'timestampText':{'simpleText':'0:01'}}}}},{'addLiveChatTickerItemAction':{'durationSec':'5'}},{'addChatItemAction':{'item':{'liveChatPaidMessageRenderer':{}}}}]}}]".

(** A membership message, to follow the text message. *)
Definition memberMessage : value Z :=
  obj [("addChatItemAction",
        obj [("item",
              obj [("liveChatMembershipItemRenderer",
                    obj [("headerSubtext",
                          obj [("simpleText", str "New member")]);
                         ("authorName", obj [("simpleText", str "Bob")])])])])].

(** A text message with a null entry in its runs. *)
Definition nullRunMessage : value Z :=
  obj [("addChatItemAction",
        obj [("item",
              obj [("liveChatTextMessageRenderer",
                    obj [("message", obj [("runs", VArr [VNull])])])])])].

Definition nullRunDump : value Z :=
  VArr [obj [("replayChatItemAction",
              obj [("actions", VArr [nullRunMessage])])]].

Definition nullRunText : jstring :=
  litq "[{'replayChatItemAction':{'actions':[{'addChatItemAction':{'item':{'liveChatTextMessageRenderer':{'message':{'runs':[null]}}}}}]}}]".

(** A run with an empty text and an emoji. *)
Definition emptyTextEmojiRun : value Z :=
  obj [("text", str "");
       ("emoji",
        obj [("shortcuts", VArr [str ":x:"]);
             ("image",
              obj [("thumbnails", VArr [obj [("url", str "x.png")]])])])].

(** A run whose text is an object with a [toString] entry. *)
Definition objectTextRun : value Z :=
  obj [("text", obj [("toString", VNum 1%Z)])].

(** A renderer whose fields are empty strings, with one badge. *)
Definition emptyBadge : value Z :=
  obj [("liveChatAuthorBadgeRenderer",
        obj [("customThumbnail",
              obj [("thumbnails", VArr [obj [("url", str "b.png")]])]);
             ("tooltip", str "")])].

Definition emptyFieldsRenderer : value Z :=
  obj [("authorPhoto", obj [("thumbnails", VArr [obj [("url", str "")]])]);
       ("timestampText", obj [("simpleText", str "")]);
       ("authorName", obj [("simpleText", str "")]);
       ("authorBadges", VArr [emptyBadge]);
       ("message", obj [("runs", VArr [obj [("text", str "")]])])].

(** The parser of the sample host knows two documents. *)
Definition sample_parse (text : jstring) : jstring + value Z :=
  if eqb text dumpText then inr dump
  else if eqb text nullRunText then inr nullRunDump
  else inl (lit "Unexpected token").

(** The page of the sample host was opened from a file. [img.src] reads
    back what the attribute resolves to against the page: the URL of the
    page itself for the empty string, a neighbour of the page for a
    relative name, as the samples have them. *)
Definition pageUrl : jstring := lit "file:///replayer/index.html".

Definition page_readback (src : jstring) : jstring :=
  if is_empty src then pageUrl else (lit "file:///replayer/" ++ src)%list.

#[export] Instance sample_host : Host Z := {|
  number_truthy := fun z => negb (Z.eqb z 0);
  number_toString := z_toString;
  JSON_parse := sample_parse;
  type_error_message := fun _ => lit "TypeError";
  img_src_readback := page_readback
|}.


Definition start : pass := {| counts := zero_counters; chat := [] |}.

Definition emptyFieldsMessage : value Z :=
  obj [("addChatItemAction",
        obj [("item",
              obj [("liveChatTextMessageRenderer", emptyFieldsRenderer)])])].

(** What the script leaves for the samples. *)
Definition shownThree : display :=
  Eval vm_compute in
    match displayChatMessages LocalFile threeActions with
    | Ok shown => shown
    | Throw _ => {| container := Children []; final := zero_counters |}
    end.

Definition shuffled : list (value Z) :=
  [tickerEntry; paidMessage; textMessage].

Definition shownShuffled : display :=
  Eval vm_compute in
    match displayChatMessages LocalFile shuffled with
    | Ok shown => shown
    | Throw _ => {| container := Children []; final := zero_counters |}
    end.

Definition afterEmptyFields : pass :=
  Eval vm_compute in
    match processAction emptyFieldsMessage start with
    | Ok st => st
    | Throw _ => start
    end.

Definition nodeOf (action : value Z) : node :=
  match messagesOf [action] with
  | Ok [shown] => shown
  | _ => Text []
  end.

Definition textNode : node := Eval vm_compute in nodeOf textMessage.

Definition memberNode : node := Eval vm_compute in nodeOf memberMessage.

Definition shownOrdered : display :=
  Eval vm_compute in
    match displayChatMessages LocalFile
            ([tickerEntry] ++ textMessage :: [paidMessage] ++
             memberMessage :: [tickerEntry]) with
    | Ok shown => shown
    | Throw _ => {| container := Children []; final := zero_counters |}
    end.

End Sample.

(** ** The loaders

    What [handleFileSelect] and [handleUrlLoad] do around [processChatData]
    (src/script.js, lines 10 to 92; the later revisions add the URL
    loader). The reading of the file and the download are events of the
    host; the handlers are given by what they leave once the event came. *)

(** [s.startsWith(prefix)] and [s.endsWith(suffix)] *)
Fixpoint startsWithText (prefix s : jstring) : bool :=
  match prefix, s with
  | [], _ => true
  | p :: prefix', c :: s' => N.eqb p c && startsWithText prefix' s'
  | _ :: _, [] => false
  end.

Definition endsWithText (suffix s : jstring) : bool :=
  startsWithText (rev suffix) (rev s).

(** The selected file, as far as the handler looks at it. *)
Record file := {
  file_type : jstring;
  file_name : jstring
}.

(** How the reader ends: [onload] with the text, or [onerror]. *)
Inductive read_event :=
| Loaded (text : jstring)
| ReadError.

(** What a selection leaves: whether the console got the warning about the
    type, and the container. *)
Record selection := {
  warned : bool;
  shown : container_state
}.

Definition slash : N := 47.

(** [s.split("/")] *)
Fixpoint splitSlash (s : jstring) : list jstring :=
  match s with
  | [] => [[]]
  | c :: r =>
      if N.eqb c slash then [] :: splitSlash r
      else match splitSlash r with
           | part :: parts => (c :: part) :: parts
           | [] => [[c]]
           end
  end.

(** [url.split("/").pop()], the name [handleUrlLoad] decodes and shows. *)
Definition lastSegment (url : jstring) : jstring :=
  last (splitSlash url) [].

(** [allChunks.set(chunk, position)] on a [Uint8Array]: a RangeError when
    the chunk does not fit. *)
Definition typedArraySet (allChunks chunk : list N) (position : nat)
  : option (list N) :=
  if position + List.length chunk <=? List.length allChunks
  then Some (firstn position allChunks ++ chunk ++
             skipn (position + List.length chunk) allChunks)
  else None.

(** The loop [for (const chunk of chunks)] of [handleUrlLoad]. *)
Fixpoint copyChunks (chunks : list (list N)) (allChunks : list N)
  (position : nat) : option (list N * nat) :=
  match chunks with
  | [] => Some (allChunks, position)
  | chunk :: rest =>
      match typedArraySet allChunks chunk position with
      | Some written => copyChunks rest written (position + List.length chunk)
      | None => None
      end
  end.

(** [receivedBytes] when the stream is done. *)
Definition receivedBytes (chunks : list (list N)) : nat :=
  fold_left (fun received chunk => received + List.length chunk) chunks 0.

(** The bytes handed to the decoder: [new Uint8Array(receivedBytes)], then
    the loop. *)
Definition combineChunks (chunks : list (list N)) : option (list N * nat) :=
  copyChunks chunks (repeat 0%N (receivedBytes chunks)) 0.

(** A separator somewhere in a text. *)
Fixpoint hasSeparator (s : jstring) : bool :=
  match s with
  | [] => false
  | c :: r =>
      (N.eqb c rbrace &&
       match matchSeparator r with Some _ => true | None => false end)
      || hasSeparator r
  end.

Section Loaders.

Context {number : Type} {host : Host number}.

Variable rev : revision.

Definition warnsAboutType (selected : file) : bool :=
  negb (eqb (file_type selected) (lit "application/json")) &&
  negb (endsWithText (lit ".json") (file_name selected)).

(** [handleFileSelect(event)] with the event of the reader it starts. The
    loading message of the later revisions is replaced by either handler. *)
Definition handleFileSelect (selected : option file) (event : read_event)
  : selection :=
  match selected with
  | None =>
      {| warned := false; shown := displayError (lit "No file selected.") |}
  | Some f =>
      {| warned := warnsAboutType f;
         shown :=
           match event with
           | Loaded rawText => processChatData rev rawText
           | ReadError => displayError (lit "Error reading file.")
           end |}
  end.

(** The shape of every message [displayChatMessages] appends: a
    [div.chat-message] with the author photo, then the content with the
    header (time, name, badges) and the body. *)
Definition is_message (element : node) : Prop :=
  exists messageTypeClass src time name badges body,
    element =
    messageElement messageTypeClass (authorImg src)
      (timeSpan time :: nameSpan name :: badges) body.

End Loaders.

(** A host whose parser knows documents without actions. *)
Module Cases.

#[local] Open Scope string_scope.

Definition emptyArrayText : jstring := lit " [] ".

Definition bareObjectsText : jstring := litq "{'a':1} {'b':[]}".

Definition bareObjects : list (value Z) :=
  [Sample.obj [("a", VNum 1%Z)]; Sample.obj [("b", VArr [])]].

Definition brokenText : jstring := lit "{oops".

Definition cases_parse (text : jstring) : jstring + value Z :=
  if eqb text (lit "[]") then inr (VArr [])
  else if eqb text (litq "[{'a':1},{'b':[]}]") then inr (VArr bareObjects)
  else inl (lit "Unexpected token o in JSON at position 2").

Definition cases_host : Host Z := {|
  number_truthy := fun z => negb (Z.eqb z 0);
  number_toString := Sample.z_toString;
  JSON_parse := cases_parse;
  type_error_message := fun _ => lit "TypeError";
  img_src_readback := Sample.page_readback
|}.

(** A text message whose badges are an object, not an array. *)
Definition badBadgesMessage : value Z :=
  Sample.obj
    [("addChatItemAction",
      Sample.obj
        [("item",
          Sample.obj
            [("liveChatTextMessageRenderer",
              Sample.obj [("authorBadges", Sample.obj [])])])])].

(** An emoji run with two thumbnails. *)
Definition smileRun : value Z :=
  Sample.obj
    [("emoji",
      Sample.obj
        [("image",
          Sample.obj
            [("thumbnails",
              VArr [Sample.obj [("url", Sample.str "small.png")];
                    Sample.obj [("url", Sample.str "large.png")]])]);
         ("shortcuts", VArr [Sample.str ":smile:"])])].

(** A badge with a tooltip. *)
Definition smileBadge : value Z :=
  Sample.obj
    [("liveChatAuthorBadgeRenderer",
      Sample.obj
        [("customThumbnail",
          Sample.obj
            [("thumbnails", VArr [Sample.obj [("url", Sample.str "s.png")]])]);
         ("tooltip", Sample.str "Member")])].

(** A membership message with both headers and two runs. *)
Definition fullMember : value Z :=
  Sample.obj
    [("headerPrimaryText",
      Sample.obj [("runs", VArr [Sample.obj [("text", Sample.str "Member")]])]);
     ("headerSubtext", Sample.obj [("simpleText", Sample.str "for 2 months")]);
     ("message",
      Sample.obj
        [("runs",
          VArr [Sample.obj [("text", Sample.str "hello")]; smileRun])])].

(** A membership message whose message runs are a string. *)
Definition wipedMember : value Z :=
  Sample.obj
    [("headerSubtext", Sample.obj [("simpleText", Sample.str "New member")]);
     ("message", Sample.obj [("runs", Sample.str "oops")])].

Definition subtextMember : value Z :=
  Sample.obj
    [("headerSubtext", Sample.obj [("simpleText", Sample.str "New member")])].

End Cases.

(** * Properties *)

(** ** Trimming and the repair *)

Lemma trimStart_whitespace (s : jstring) :
  forallb is_whitespace s = true -> trimStart s = [].
Proof.
  induction s as [|c r IH]; simpl; [reflexivity|].
  intros H. apply andb_true_iff in H as [Hc Hr].
  rewrite Hc. auto.
Qed.

Lemma trim_whitespace (s : jstring) :
  forallb is_whitespace s = true -> trim s = [].
Proof.
  intros H. unfold trim, trimEnd.
  rewrite (trimStart_whitespace s H). reflexivity.
Qed.

Lemma whitespace_not_lbrace (c : N) :
  is_whitespace c = true -> N.eqb c lbrace = false.
Proof.
  intros H. destruct (N.eqb c lbrace) eqn:E; [|reflexivity].
  apply N.eqb_eq in E. subst c. discriminate H.
Qed.

(** A match found inside [u] is the match found in [u] followed by a [}],
    and it ends inside [u]. *)
Lemma matchSeparator_before_rbrace (u tail : jstring) :
  matchSeparator (u ++ rbrace :: tail) = matchSeparator u /\
  (forall n, matchSeparator u = Some n -> n < List.length u).
Proof.
  induction u as [|c u IH]; simpl.
  - split; [reflexivity | discriminate].
  - destruct IH as [IHeq IHlt].
    destruct (N.eqb c lbrace).
    + split; [reflexivity|]. intros n [= <-]. lia.
    + destruct (is_whitespace c).
      * rewrite IHeq. split; [reflexivity|].
        destruct (matchSeparator u) as [m|]; simpl; [|discriminate].
        intros n [= <-]. specialize (IHlt m eq_refl). lia.
      * split; [reflexivity | discriminate].
Qed.

Lemma matchSeparator_whitespace (w v : jstring) :
  forallb is_whitespace w = true ->
  matchSeparator (w ++ lbrace :: v) = Some (List.length w).
Proof.
  induction w as [|c w IH]; simpl; intros H.
  - reflexivity.
  - apply andb_true_iff in H as [Hc Hw].
    rewrite (whitespace_not_lbrace c Hc), Hc, (IH Hw). reflexivity.
Qed.

(** What a match is: whitespace, then a [{]. *)
Lemma matchSeparator_Some (s : jstring) (n : nat) :
  matchSeparator s = Some n ->
  exists w v, s = w ++ lbrace :: v /\ forallb is_whitespace w = true /\
              List.length w = n.
Proof.
  revert n. induction s as [|c r IH]; simpl; intros n H; [discriminate|].
  destruct (N.eqb c lbrace) eqn:Ec.
  - injection H as <-. apply N.eqb_eq in Ec. subst c.
    exists [], r. auto.
  - destruct (is_whitespace c) eqn:Ew; [|discriminate].
    destruct (matchSeparator r) as [m|]; [|discriminate].
    injection H as <-.
    destruct (IH m eq_refl) as (w & v & -> & Hw & Hlen).
    exists (c :: w), v. simpl. rewrite Ew, Hw, Hlen. auto.
Qed.

Lemma replaceFrom_skip (w v : jstring) :
  replaceFrom (S (List.length w)) (w ++ lbrace :: v) = replaceFrom 0 v.
Proof.
  induction w as [|c w IH]; simpl.
  - destruct v; reflexivity.
  - exact IH.
Qed.

(** The scan of [u] does not depend on what follows a [}] after [u]. *)
Lemma replaceFrom_before_rbrace (u tail : jstring) (k : nat) :
  k <= List.length u ->
  replaceFrom k (u ++ rbrace :: tail) =
  replaceFrom k u ++ replaceFrom 0 (rbrace :: tail).
Proof.
  revert k. induction u as [|c u IH]; intros k Hk.
  - simpl in Hk. assert (k = 0) as -> by lia. reflexivity.
  - destruct k as [|k].
    + change (replaceFrom 0 ((c :: u) ++ rbrace :: tail))
        with (if N.eqb c rbrace then
                match matchSeparator (u ++ rbrace :: tail) with
                | Some n => lit "},{" ++ replaceFrom (S n) (u ++ rbrace :: tail)
                | None => c :: replaceFrom 0 (u ++ rbrace :: tail)
                end
              else c :: replaceFrom 0 (u ++ rbrace :: tail)).
      change (replaceFrom 0 (c :: u))
        with (if N.eqb c rbrace then
                match matchSeparator u with
                | Some n => lit "},{" ++ replaceFrom (S n) u
                | None => c :: replaceFrom 0 u
                end
              else c :: replaceFrom 0 u).
      destruct (matchSeparator_before_rbrace u tail) as [-> Hlt].
      destruct (N.eqb c rbrace).
      * destruct (matchSeparator u) as [n|].
        -- specialize (Hlt n eq_refl).
           rewrite (IH (S n)) by lia. rewrite <- app_assoc. reflexivity.
        -- rewrite (IH 0) by lia. reflexivity.
      * rewrite (IH 0) by lia. reflexivity.
    + simpl in Hk. simpl. apply IH. lia.
Qed.

(** Every separator is replaced: the text around it is repaired on its
    own. *)
Lemma replaceSeparators_separator (u w v : jstring) :
  forallb is_whitespace w = true ->
  replaceSeparators (u ++ rbrace :: w ++ lbrace :: v) =
  replaceSeparators u ++ lit "},{" ++ replaceSeparators v.
Proof.
  intros Hw. unfold replaceSeparators.
  rewrite replaceFrom_before_rbrace by lia. f_equal.
  change (replaceFrom 0 (rbrace :: w ++ lbrace :: v))
    with (match matchSeparator (w ++ lbrace :: v) with
          | Some n => lit "},{" ++ replaceFrom (S n) (w ++ lbrace :: v)
          | None => rbrace :: replaceFrom 0 (w ++ lbrace :: v)
          end).
  rewrite (matchSeparator_whitespace w v Hw), replaceFrom_skip. reflexivity.
Qed.

(** A text without separator is left as it is. *)
Lemma replaceSeparators_none (s : jstring) :
  (forall u w v, s = u ++ rbrace :: w ++ lbrace :: v ->
                 forallb is_whitespace w = true -> False) ->
  replaceSeparators s = s.
Proof.
  unfold replaceSeparators. induction s as [|c r IH]; intros Hfree.
  - reflexivity.
  - assert (Hr : replaceFrom 0 r = r).
    { apply IH. intros u w v -> Hw. apply (Hfree (c :: u) w v); auto. }
    change (replaceFrom 0 (c :: r))
      with (if N.eqb c rbrace then
              match matchSeparator r with
              | Some n => lit "},{" ++ replaceFrom (S n) r
              | None => c :: replaceFrom 0 r
              end
            else c :: replaceFrom 0 r).
    destruct (N.eqb c rbrace) eqn:Ec; [|now rewrite Hr].
    destruct (matchSeparator r) as [n|] eqn:Em; [|now rewrite Hr].
    exfalso. apply N.eqb_eq in Ec. subst c.
    destruct (matchSeparator_Some r Em) as (w & v & -> & Hw & _).
    apply (Hfree [] w v); auto.
Qed.

Lemma repair_is_array (t : jstring) : isLikelyValidArray (repair t) = true.
Proof.
  unfold isLikelyValidArray, repair, endsWith.
  rewrite !rev_app_distr. reflexivity.
Qed.

Section Pipeline.

Context {number : Type} {host : Host number}.

Variable rev : revision.

(** C2. A trimmed text that is not bracketed on both sides is repaired:
    every [}], optional whitespace, [{] becomes [},{] (the text before and
    after a separator is repaired on its own, a text without separator is
    kept), the result is wrapped in brackets, and that is what the parser
    gets; the two concatenated objects of the scenario become the array of
    the two. *)
Theorem C2_repair_concatenated (rawText : jstring)
  (Hnonempty : is_empty (trim rawText) = false)
  (Hrepair : isLikelyValidArray (trim rawText) = false) :
  preprocess (trim rawText) =
    lit "[" ++ replaceSeparators (trim rawText) ++ lit "]" /\
  processChatData rev rawText =
    tryCatch rev (parseAndDisplay rev
                (lit "[" ++ replaceSeparators (trim rawText) ++ lit "]")) /\
  (forall u w v, forallb is_whitespace w = true ->
     replaceSeparators (u ++ rbrace :: w ++ lbrace :: v) =
     replaceSeparators u ++ lit "},{" ++ replaceSeparators v) /\
  (forall s,
     (forall u w v, s = u ++ rbrace :: w ++ lbrace :: v ->
                    forallb is_whitespace w = true -> False) ->
     replaceSeparators s = s) /\
  preprocess (litq "{'a':1}{'b':2}") = litq "[{'a':1},{'b':2}]".
Proof.
  assert (Hpre : preprocess (trim rawText) =
                 lit "[" ++ replaceSeparators (trim rawText) ++ lit "]").
  { unfold preprocess. rewrite Hrepair. reflexivity. }
  split; [exact Hpre|]. split.
  - unfold processChatData. rewrite Hnonempty, Hpre. reflexivity.
  - split; [exact replaceSeparators_separator|].
    split; [exact replaceSeparators_none | reflexivity].
Qed.

(** C3. A trimmed text that starts with [[] and ends with []] is not
    repaired and reaches the parser as it is; a repaired text is of that
    form, so repairing again changes nothing. *)
Theorem C3_repair_idempotent (rawText : jstring)
  (Hnonempty : is_empty (trim rawText) = false)
  (Harray : isLikelyValidArray (trim rawText) = true) :
  preprocess (trim rawText) = trim rawText /\
  processChatData rev rawText = tryCatch rev (parseAndDisplay rev (trim rawText)) /\
  (forall t, isLikelyValidArray (repair t) = true /\
             preprocess (repair t) = repair t /\
             preprocess (preprocess t) = preprocess t).
Proof.
  assert (Hpre : preprocess (trim rawText) = trim rawText).
  { unfold preprocess. rewrite Harray. reflexivity. }
  split; [exact Hpre|]. split.
  - unfold processChatData. rewrite Hnonempty, Hpre. reflexivity.
  - intros t.
    assert (Hfix : preprocess (repair t) = repair t).
    { unfold preprocess at 1. rewrite repair_is_array. reflexivity. }
    split; [apply repair_is_array|]. split; [exact Hfix|].
    destruct (isLikelyValidArray t) eqn:E.
    + unfold preprocess. rewrite !E. reflexivity.
    + assert (Ht : preprocess t = repair t)
        by (unfold preprocess; rewrite E; reflexivity).
      rewrite Ht. exact Hfix.
Qed.

(** C4. An empty or whitespace-only text ends in the empty-data error,
    whatever the parser of the host does, and the container holds the error
    paragraph and no message. *)
Theorem C4_empty_input (rawText : jstring)
  (Hblank : forallb is_whitespace rawText = true) :
  processChatData rev rawText = displayError (emptyInputMessage rev) /\
  (forall nodes, processChatData rev rawText <> Children nodes).
Proof.
  assert (H : processChatData rev rawText =
              displayError (emptyInputMessage rev)).
  { unfold processChatData. rewrite (trim_whitespace rawText Hblank).
    reflexivity. }
  split; [exact H|]. intros nodes. rewrite H. discriminate.
Qed.

End Pipeline.

(** ** Reads of properties *)

Section Reads.

Context {number : Type} {host : Host number}.

Variable rev : revision.

#[local] Abbreviation value := (value number).

(** A read with [.] of a truthy value does not throw and gives what [?.]
    gives. *)
Lemma member_truthy (v : value) (key : string) :
  truthy v = true -> member v key = Ok (opt_member v key).
Proof. destruct v; simpl; intros H; try discriminate H; reflexivity. Qed.

Lemma index0_truthy (v : value) :
  truthy v = true -> index0 v = Ok (opt_index0 v).
Proof. destruct v; simpl; intros H; try discriminate H; reflexivity. Qed.

(** A chain of [?.] that ends truthy went through truthy values only. *)
Lemma opt_member_truthy (v : value) (key : string) :
  truthy (opt_member v key) = true -> truthy v = true.
Proof. destruct v; simpl; intros H; try discriminate H; reflexivity. Qed.

Lemma opt_index0_truthy (v : value) :
  truthy (opt_index0 v) = true -> truthy v = true.
Proof.
  destruct v as [| | | |s| |]; simpl; intros H; try discriminate H;
    try reflexivity.
  destruct s; [discriminate H | reflexivity].
Qed.

Lemma member_Ok (v x : value) (key : string) :
  member v key = Ok x -> opt_member v key = x.
Proof. destruct v; simpl; intros H; try discriminate H; now injection H. Qed.

Lemma forEach_app {A S : Type} (f : A -> S -> result S) (l1 l2 : list A)
  (s : S) :
  forEach f (l1 ++ l2) s = let* s1 := forEach f l1 s in forEach f l2 s1.
Proof.
  revert s. induction l1 as [|x l1 IH]; intros s; simpl; [reflexivity|].
  destruct (f x s) as [s'|e]; simpl; [apply IH | reflexivity].
Qed.

(** ** The extraction of the actions *)

Lemma extractActions_app (items rest : list value) :
  extractActions (items ++ rest) = extractActions items ++ extractActions rest.
Proof. unfold extractActions, flatMap. apply flat_map_app. Qed.

(** C5. The actions of a top-level sequence are the actions of its items,
    one item after the other. An item gives the list read at
    [item?.replayChatItemAction?.actions] when there is one, else the list
    read at [item?.continuationContents?.liveChatContinuation?.actions],
    else nothing, and this is no error: an item that holds a list in both
    places gives the first only, one that holds a list in the second place
    alone gives that list, a null item gives nothing. Presence is
    truthiness, and a truthy value that is no list counts as one action.
    The display gets the sequence extracted this way. *)
Theorem C5_action_extraction (items rest : list value) (item : value) :
  let replay := opt_member (opt_member item "replayChatItemAction") "actions" in
  let continuation :=
    opt_member
      (opt_member (opt_member item "continuationContents")
         "liveChatContinuation")
      "actions" in
  extractActions (items ++ rest) =
    extractActions items ++ extractActions rest /\
  extractActions (item :: rest) = extractActions [item] ++ extractActions rest /\
  (forall l, replay = VArr l -> extractActions [item] = l) /\
  (forall l, truthy replay = false ->
             continuation = VArr l -> extractActions [item] = l) /\
  (truthy replay = false ->
   truthy continuation = false -> extractActions [item] = []) /\
  (truthy replay = true -> extractActions [item] = spliced replay) /\
  (truthy replay = false ->
   truthy continuation = true ->
   extractActions [item] = spliced continuation) /\
  (forall first second : list value,
     extractActions
       [VObj [(lit "replayChatItemAction",
               VObj [(lit "actions", VArr first)]);
              (lit "continuationContents",
               VObj [(lit "liveChatContinuation",
                      VObj [(lit "actions", VArr second)])])]] = first) /\
  (forall second : list value,
     extractActions
       [VObj [(lit "continuationContents",
               VObj [(lit "liveChatContinuation",
                      VObj [(lit "actions", VArr second)])])]] = second) /\
  extractActions [VNull; VObj []] = [] /\
  (forall text, JSON_parse text = inr (VArr items) ->
     parseAndDisplay rev text = displayChatMessages rev (extractActions items)).
Proof.
  intros replay continuation.
  assert (Hone : extractActions [item] =
                 spliced (or_else (or_else replay continuation) (VArr []))).
  { unfold extractActions, flatMap. simpl. apply app_nil_r. }
  split; [apply extractActions_app|].
  split; [apply (extractActions_app [item] rest)|].
  rewrite Hone. unfold or_else.
  repeat split.
  - intros l ->. reflexivity.
  - intros l -> ->. reflexivity.
  - intros -> ->. reflexivity.
  - intros H. rewrite H. cbn iota. rewrite H. reflexivity.
  - intros HA HB. rewrite HA. cbn iota. rewrite HB. reflexivity.
  - intros first second. unfold extractActions, flatMap. simpl.
    apply app_nil_r.
  - intros second. unfold extractActions, flatMap. simpl. apply app_nil_r.
  - intros text H. unfold parseAndDisplay, parse. rewrite H. reflexivity.
Qed.

End Reads.

(** ** The classification pass *)

Section Classification.

Context {number : Type} {host : Host number}.

Variable rev : revision.

#[local] Abbreviation value := (value number).

(** What one action does to any state, when it does not throw: it counts
    in the category the specification gives it and adds its nodes. *)
Lemma processAction_effect (action : value) (st st' : pass) :
  processAction action st = Ok st' ->
  exists added, forall st0,
    processAction action st0 =
    Ok {| counts := count_in (spec_category action) (counts st0);
          chat := chat st0 ++ added |}.
Proof.
  unfold processAction, spec_category.
  destruct (truthy (opt_member action "addChatItemAction")) eqn:Eadd.
  - rewrite (member_truthy _ "item" Eadd). cbn [bind].
    destruct (truthy (opt_member (opt_member action "addChatItemAction")
                        "item")) eqn:Eitem; cbn [negb].
    + rewrite !(member_truthy _ _ Eitem). cbn [bind].
      destruct (truthy (opt_member _ "liveChatTextMessageRenderer")) eqn:Et.
      * unfold showMessage.
        destruct (buildMessage _ _ _ _) as [element|e];
          [|discriminate]. cbn [bind orb count_in]. intros _.
        exists [element]. reflexivity.
      * destruct (truthy (opt_member _ "liveChatMembershipItemRenderer"))
          eqn:Em.
        -- unfold showMessage.
           destruct (buildMessage _ _ _ _) as [element|e];
             [|discriminate]. cbn [bind orb count_in]. intros _.
           exists [element]. reflexivity.
        -- intros _. exists []. intros st0. cbn [orb count_in].
           now rewrite app_nil_r.
    + intros _. exists []. intros st0. cbn [count_in]. now rewrite app_nil_r.
  - destruct (truthy (opt_member action "addLiveChatTickerItemAction"));
      intros _; exists []; intros st0; cbn [count_in]; now rewrite app_nil_r.
Qed.

Lemma forEach_processAction_effect (actions : list value) (st st' : pass) :
  forEach processAction actions st = Ok st' ->
  exists added, forall st0,
    forEach processAction actions st0 =
    Ok {| counts :=
            fold_left (fun c k => count_in k c)
              (map spec_category actions) (counts st0);
          chat := chat st0 ++ added |}.
Proof.
  revert st. induction actions as [|a actions IH]; intros st; simpl.
  - intros _. exists []. intros [c0 ch0]. simpl. now rewrite app_nil_r.
  - destruct (processAction a st) as [s1|e] eqn:Ea; [|discriminate].
    cbn [bind]. intros Hrest.
    destruct (processAction_effect _ _ Ea) as [added1 H1].
    destruct (IH _ Hrest) as [added2 H2].
    exists (added1 ++ added2). intros st0.
    rewrite H1. cbn [bind]. rewrite H2. simpl. now rewrite app_assoc.
Qed.

Lemma total_count_in (k : category) (c : counters) :
  total (count_in k c) = S (total c).
Proof. destruct k; unfold total; simpl; lia. Qed.

Lemma total_fold (kinds : list category) (c : counters) :
  total (fold_left (fun c k => count_in k c) kinds c) =
  total c + List.length kinds.
Proof.
  revert c. induction kinds as [|k kinds IH]; intros c; simpl; [lia|].
  rewrite IH, total_count_in. lia.
Qed.

(** A run that returns is the tally of the categories and the nodes of
    the actions under the summary. *)
Lemma displayChatMessages_Ok (actions : list value) (shown : display) :
  displayChatMessages rev actions = Ok shown ->
  final shown = tally (map spec_category actions) /\
  (actions <> [] ->
   exists added, messagesOf actions = Ok added /\
     container shown =
     Children (summary rev (final shown) (List.length actions) :: added)).
Proof.
  unfold displayChatMessages, messagesOf.
  destruct actions as [|a actions].
  - simpl. intros [= <-]. split; [reflexivity|]. intros H. now elim H.
  - cbn [List.length Nat.eqb].
    destruct (forEach processAction (a :: actions) _) as [st|e] eqn:Erun;
      [|discriminate].
    cbn [bind]. intros [= <-]. cbn [final container].
    destruct (forEach_processAction_effect _ _ Erun) as [added H].
    rewrite H in Erun. injection Erun as <-. cbn [counts chat].
    split; [reflexivity|]. intros _. exists added. split; reflexivity.
Qed.

(** An action that is not displayed never throws. *)
Lemma processAction_skipped (action : value) (st : pass) :
  spec_category action <> Displayed ->
  processAction action st =
  Ok {| counts := count_in (spec_category action) (counts st);
        chat := chat st |}.
Proof.
  unfold processAction, spec_category.
  destruct (truthy (opt_member action "addChatItemAction")) eqn:Eadd.
  - rewrite (member_truthy _ "item" Eadd). cbn [bind].
    destruct (truthy (opt_member (opt_member action "addChatItemAction")
                        "item")) eqn:Eitem; cbn [negb]; [|reflexivity].
    rewrite !(member_truthy _ _ Eitem). cbn [bind].
    destruct (truthy (opt_member _ "liveChatTextMessageRenderer"));
      [intros H; now elim H|].
    destruct (truthy (opt_member _ "liveChatMembershipItemRenderer"));
      [intros H; now elim H | reflexivity].
  - destruct (truthy (opt_member action "addLiveChatTickerItemAction"));
      reflexivity.
Qed.

(** The pass returns when each of its actions, taken alone, returns; an
    action that is not displayed does. *)
Lemma displayChatMessages_returns (actions : list value) :
  Forall (fun a => spec_category a <> Displayed \/
                   exists added, messagesOf [a] = Ok added) actions ->
  exists shown, displayChatMessages rev actions = Ok shown.
Proof.
  intros Hall.
  assert (Hrun : forall st, exists st', forEach processAction actions st = Ok st').
  { induction Hall as [|a l Ha _ IH]; intros st; simpl; [eauto|].
    assert (Hstep : exists s1, processAction a st = Ok s1).
    { destruct Ha as [Hskip | [added Hadded]].
      - rewrite (processAction_skipped a st Hskip). eauto.
      - unfold messagesOf in Hadded. simpl in Hadded.
        destruct (processAction a _) as [s0|e] eqn:E0; [|discriminate].
        destruct (processAction_effect _ _ E0) as [added0 H0].
        rewrite H0. eauto. }
    destruct Hstep as [s1 ->]. cbn [bind]. apply IH. }
  unfold displayChatMessages.
  destruct (List.length actions =? 0); [eauto|].
  destruct (Hrun {| counts := zero_counters; chat := [] |}) as [st' ->].
  cbn [bind]. eauto.
Qed.


Lemma messagesOf_app (l1 l2 : list value) (added : list node) :
  messagesOf (l1 ++ l2) = Ok added ->
  exists added1 added2,
    messagesOf l1 = Ok added1 /\ messagesOf l2 = Ok added2 /\
    added = added1 ++ added2.
Proof.
  unfold messagesOf. rewrite forEach_app.
  destruct (forEach processAction l1 _) as [s1|e] eqn:E1; [|discriminate].
  cbn [bind].
  destruct (forEach processAction l2 s1) as [s2|e] eqn:E2; [|discriminate].
  cbn [bind]. intros [= <-].
  destruct (forEach_processAction_effect _ _ E1) as [added1 H1].
  destruct (forEach_processAction_effect _ _ E2) as [added2 H2].
  rewrite H1 in E1. injection E1 as <-.
  rewrite H2 in E2. injection E2 as <-.
  exists added1, added2. rewrite H2. cbn [bind chat app]. auto.
Qed.

(** C7. The messages in the container stand in the order of the actions
    they come from: when [A] comes before [B] and each emits a message,
    the message of [A] stands before the message of [B], after the messages
    of the actions before [A], and the messages of the actions between the
    two stand between them. *)
Theorem C7_order_preserved (before between after : list value)
  (A B : value) (mA mB : node) (shown : display)
  (Hrun : displayChatMessages rev (before ++ A :: between ++ B :: after)
          = Ok shown)
  (HA : messagesOf [A] = Ok [mA])
  (HB : messagesOf [B] = Ok [mB]) :
  exists pre mid post,
    messagesOf before = Ok pre /\
    messagesOf between = Ok mid /\
    messagesOf after = Ok post /\
    container shown =
    Children
      (summary rev (final shown)
         (List.length (before ++ A :: between ++ B :: after))
       :: pre ++ mA :: mid ++ mB :: post).
Proof.
  destruct (displayChatMessages_Ok _ Hrun) as [_ Hshown].
  destruct Hshown as (added & Hadded & Hcontainer).
  { destruct before; discriminate. }
  change (A :: between ++ B :: after)
    with ([A] ++ between ++ [B] ++ after) in Hadded.
  apply messagesOf_app in Hadded as (pre & r1 & Hpre & Hr1 & ->).
  apply messagesOf_app in Hr1 as (a & r2 & Ha & Hr2 & ->).
  apply messagesOf_app in Hr2 as (mid & r3 & Hmid & Hr3 & ->).
  apply messagesOf_app in Hr3 as (b & post & Hb & Hpost & ->).
  rewrite HA in Ha. injection Ha as <-.
  rewrite HB in Hb. injection Hb as <-.
  exists pre, mid, post. rewrite Hcontainer. auto.
Qed.

(** ** The summary *)

Lemma count_in_comm (j k : category) (c : counters) :
  count_in j (count_in k c) = count_in k (count_in j c).
Proof. destruct j, k; reflexivity. Qed.

Lemma tally_Permutation (kinds kinds' : list category) :
  Permutation kinds kinds' -> tally kinds = tally kinds'.
Proof.
  unfold tally. generalize zero_counters.
  intros c H. revert c.
  induction H as [|k l l' _ IH|j k l|l l' l'' _ IH1 _ IH2]; intros c; simpl.
  - reflexivity.
  - apply IH.
  - now rewrite count_in_comm.
  - now rewrite IH1.
Qed.

Lemma skippedMessages_breakdown (c : counters) :
  skippedMessages c = spec_breakdown c.
Proof.
  unfold skippedMessages, spec_breakdown.
  destruct c as [m [|t] [|a] [|i]]; reflexivity.
Qed.

(** C6, amended. One displayed message, one ticker and one unhandled item,
    in any order, leave the counters 1, 1, 1 and 0 and the summary
    "Displayed 1 messages. (Skipped: 1 ticker, 1 unhandled item types)",
    with the full stop of the first sentence; the breakdown lists the
    skip categories that are not zero, each with count and label, joined
    by commas, and there is no breakdown when all are zero. *)
Theorem C6_summary_scenario (actions : list value) (shown : display)
  (Hkinds : Permutation (map spec_category actions)
              [Displayed; SkippedTicker; SkippedUnhandledItem])
  (Hrun : displayChatMessages rev actions = Ok shown) :
  final shown =
    {| messageCount := 1; skippedTickerCount := 1;
       skippedOtherActionCount := 0; skippedOtherItemCount := 1 |} /\
  (exists messages,
     container shown =
     Children
       (Element (lit "p") [] []
          [Text (lit "Displayed 1 messages. (Skipped: 1 ticker, 1 unhandled item types)")]
        :: messages)) /\
  (forall c n,
     skippedMessages c = spec_breakdown c /\
     summaryText rev c n =
     summaryHead rev c n ++
     match spec_breakdown c with
     | [] => []
     | parts => lit " (Skipped: " ++ join (lit ", ") parts ++ lit ")"
     end).
Proof.
  destruct (displayChatMessages_Ok _ Hrun) as [Hfinal Hshown].
  rewrite (tally_Permutation Hkinds) in Hfinal.
  split; [exact Hfinal|]. split.
  - destruct Hshown as (added & _ & Hcontainer).
    { intros ->. apply Permutation_nil in Hkinds. discriminate Hkinds. }
    exists added. rewrite Hcontainer, Hfinal.
    apply Permutation_length in Hkinds. rewrite length_map in Hkinds.
    rewrite Hkinds. destruct rev; reflexivity.
  - intros c n. split; [apply skippedMessages_breakdown|].
    unfold summaryText. rewrite skippedMessages_breakdown.
    destruct (spec_breakdown c); simpl; [now rewrite app_nil_r | reflexivity].
Qed.

End Classification.

(** ** Runs, badges and fields *)

Section Runs.

Context {number : Type} {host : Host number}.

#[local] Abbreviation value := (value number).

(** Induction on a value, with the elements of an array at hand. *)
Lemma value_elements_ind (P : value -> Prop)
  (Hundefined : P VUndefined) (Hnull : P VNull)
  (Hbool : forall b, P (VBool b)) (Hnum : forall n, P (VNum n))
  (Hstr : forall s, P (VStr s))
  (Harr : forall elements, Forall P elements -> P (VArr elements))
  (Hobj : forall fields, P (VObj fields)) :
  forall v, P v.
Proof.
  fix IH 1. intros [| |b|n|s|elements|fields].
  - exact Hundefined.
  - exact Hnull.
  - apply Hbool.
  - apply Hnum.
  - apply Hstr.
  - apply Harr. revert elements. fix IHelements 1.
    intros [|x r]; constructor; [apply IH | apply IHelements].
  - apply Hobj.
Qed.

(** The only error of ToString. *)
Lemma toString_Throw (v : value) (e : js_error) :
  toString v = Throw e -> e = TypeError NoPrimitiveValue.
Proof.
  revert e. induction v as [| |b|n|s|elements IH|fields]
    using value_elements_ind; intros e; simpl; try discriminate.
  - destruct b; discriminate.
  - induction IH as [|x r Hx _ IHr]; [discriminate|].
    destruct (match x with
              | VUndefined | VNull => Ok []
              | _ => toString x
              end) as [element|e'] eqn:Ex; cbn [bind].
    + destruct r as [|y r']; [discriminate|].
      match goal with
      | |- context [bind ?j _] => destruct j as [rest|e''] eqn:Er
      end; cbn [bind]; [discriminate|].
      intros [= <-]. apply IHr. reflexivity.
    + intros [= <-]. destruct x; try discriminate Ex; apply (Hx _ Ex).
  - destruct (hasOwnProperty _ fields); [|discriminate].
    now intros [= <-].
Qed.

(** A run with a truthy text becomes a text node, once its text is
    converted. *)
Lemma processRun_text (run : value) (target : list node) :
  truthy (opt_member run "text") = true ->
  processRun run target =
  let* data := toString (opt_member run "text") in
  Ok (target ++ [Text data]).
Proof.
  intros H. unfold processRun.
  rewrite (member_truthy run "text" (opt_member_truthy _ _ H)).
  cbn [bind]. rewrite H. reflexivity.
Qed.

(** An emoji becomes an image, or the bracketed alternative text when
    [img.src] reads back empty, once the source and the alternative text
    are converted, in this order. *)
Lemma showEmoji_truthy (emoji : value) (target : list node) :
  truthy emoji = true ->
  showEmoji emoji target =
  let* src := toString (emojiSrc emoji) in
  let* alt := toString (emojiAltText emoji) in
  Ok (target ++
      [if negb (is_empty (img_src_readback (toUSVString src)))
       then chatEmoji (toUSVString src) alt
       else Text (lit "[" ++ alt ++ lit "]")]).
Proof.
  intros He. unfold showEmoji.
  rewrite !(member_truthy _ _ He). cbn [bind].
  fold (emojiSrc emoji).
  destruct (toString (emojiSrc emoji)) as [src|e]; cbn [bind]; [|reflexivity].
  fold (emojiAltText emoji).
  destruct (toString (emojiAltText emoji)) as [alt|e]; cbn [bind];
    [|reflexivity].
  destruct (negb _); reflexivity.
Qed.

(** A run without text and with an emoji is shown as the emoji. *)
Lemma processRun_emoji (run : value) (target : list node) :
  truthy (opt_member run "text") = false ->
  truthy (opt_member run "emoji") = true ->
  processRun run target = showEmoji (opt_member run "emoji") target.
Proof.
  intros Ht He. unfold processRun.
  pose proof (opt_member_truthy _ _ He) as Hrun.
  rewrite !(member_truthy run _ Hrun). cbn [bind]. rewrite Ht, He.
  reflexivity.
Qed.

(** A run that is an object, or any value but null and undefined, and has
    neither is dropped. *)
Lemma processRun_other (run : value) (target : list node) :
  run <> VNull -> run <> VUndefined ->
  truthy (opt_member run "text") = false ->
  truthy (opt_member run "emoji") = false ->
  processRun run target = Ok target.
Proof.
  intros Hnull Hundef Ht He. unfold processRun.
  assert (Hm : forall key, member run key = Ok (opt_member run key)).
  { intros key. destruct run; try reflexivity; congruence. }
  rewrite !Hm. cbn [bind]. rewrite Ht, He. reflexivity.
Qed.

(** What a run adds does not depend on what the target holds: it is what
    the run adds to an empty target, put after the children there are. *)
Lemma processRun_frame (run : value) (target : list node) :
  processRun run target =
  let* nodes := processRun run [] in Ok (target ++ nodes).
Proof.
  unfold processRun.
  destruct (member run "text") as [text|e]; cbn [bind]; [|reflexivity].
  destruct (truthy text).
  - destruct (toString text); reflexivity.
  - destruct (member run "emoji") as [emoji|e]; cbn [bind]; [|reflexivity].
    destruct (truthy emoji); [|cbn [bind]; now rewrite app_nil_r].
    unfold showEmoji.
    destruct (member emoji "image") as [image|e]; cbn [bind]; [|reflexivity].
    destruct (toString _) as [src|e]; cbn [bind]; [|reflexivity].
    destruct (member emoji "accessibility") as [accessibility|e];
      cbn [bind]; [|reflexivity].
    destruct (member emoji "shortcuts") as [shortcuts|e]; cbn [bind];
      [|reflexivity].
    destruct (toString _) as [alt|e]; cbn [bind]; [|reflexivity].
    destruct (negb _); reflexivity.
Qed.

(** A badge with a truthy custom icon URL is shown, its tooltip, or the
    word Badge, as [alt] and [title], once the URL and the tooltip are
    converted. *)
Lemma appendBadge_shown (badgeItem : value) (header : list node) :
  let badgeRenderer := opt_member badgeItem "liveChatAuthorBadgeRenderer" in
  let url :=
    opt_member
      (opt_index0
         (opt_member (opt_member badgeRenderer "customThumbnail")
            "thumbnails"))
      "url" in
  let tooltip := or_else (opt_member badgeRenderer "tooltip")
                   (VStr (lit "Badge")) in
  truthy url = true ->
  appendBadge badgeItem header =
  let* src := toString url in
  let* alt := toString tooltip in
  Ok (header ++ [authorBadge (toUSVString src) alt alt]).
Proof.
  intros badgeRenderer url tooltip Hurl. unfold appendBadge.
  fold badgeRenderer. fold url. rewrite Hurl.
  pose proof (opt_member_truthy _ _ Hurl) as H0.
  pose proof (opt_index0_truthy _ H0) as Hth.
  pose proof (opt_member_truthy _ _ Hth) as Hct.
  pose proof (opt_member_truthy _ _ Hct) as Hr.
  rewrite (member_truthy _ "customThumbnail" Hr). cbn [bind].
  rewrite (member_truthy _ "thumbnails" Hct). cbn [bind].
  rewrite (index0_truthy _ Hth). cbn [bind].
  rewrite (member_truthy _ "url" H0). cbn [bind]. fold url.
  destruct (toString url) as [src|e]; cbn [bind]; [|reflexivity].
  rewrite (member_truthy _ "tooltip" Hr). cbn [bind]. fold tooltip.
  destruct (toString tooltip) as [alt|e]; cbn [bind]; reflexivity.
Qed.

(** A badge without a truthy custom icon URL is passed by, whatever the
    entry is. *)
Lemma appendBadge_hidden (badgeItem : value) (header : list node) :
  truthy
    (opt_member
       (opt_index0
          (opt_member
             (opt_member (opt_member badgeItem "liveChatAuthorBadgeRenderer")
                "customThumbnail")
             "thumbnails"))
       "url") = false ->
  appendBadge badgeItem header = Ok header.
Proof. intros H. unfold appendBadge. rewrite H. reflexivity. Qed.

(** What a badge adds does not depend on what the header holds. *)
Lemma appendBadge_frame (badgeItem : value) (header : list node) :
  appendBadge badgeItem header =
  let* nodes := appendBadge badgeItem [] in Ok (header ++ nodes).
Proof.
  destruct (truthy
              (opt_member
                 (opt_index0
                    (opt_member
                       (opt_member
                          (opt_member badgeItem "liveChatAuthorBadgeRenderer")
                          "customThumbnail")
                       "thumbnails"))
                 "url")) eqn:Hurl.
  - rewrite !(appendBadge_shown badgeItem _ Hurl).
    destruct (toString _) as [src|e]; cbn [bind]; [|reflexivity].
    destruct (toString _) as [alt|e]; cbn [bind]; reflexivity.
  - rewrite !(appendBadge_hidden badgeItem _ Hurl). cbn [bind].
    now rewrite app_nil_r.
Qed.

(** A loop whose callback adds to the end of a list adds, in order, what
    each entry adds alone. *)
Lemma forEach_frame {A : Type} (f : A -> list node -> result (list node))
  (Hframe : forall x target,
      f x target = let* nodes := f x [] in Ok (target ++ nodes))
  (l : list A) (added : list (list node)) (target : list node) :
  Forall2 (fun x nodes => f x [] = Ok nodes) l added ->
  forEach f l target = Ok (target ++ List.concat added).
Proof.
  intros H. revert target.
  induction H as [|x nodes l added Hx _ IH]; intros target; simpl.
  - now rewrite app_nil_r.
  - rewrite Hframe, Hx. cbn [bind]. rewrite IH. now rewrite app_assoc.
Qed.

(** And it throws what the first entry that throws alone throws. *)
Lemma forEach_frame_Throw {A : Type}
  (f : A -> list node -> result (list node))
  (Hframe : forall x target,
      f x target = let* nodes := f x [] in Ok (target ++ nodes))
  (before after : list A) (x : A) (added : list (list node))
  (target : list node) (e : js_error) :
  Forall2 (fun x nodes => f x [] = Ok nodes) before added ->
  f x [] = Throw e ->
  forEach f (before ++ x :: after) target = Throw e.
Proof.
  intros Hbefore Hx. rewrite forEach_app.
  rewrite (forEach_frame f Hframe target Hbefore).
  cbn [bind forEach].
  rewrite Hframe, Hx. reflexivity.
Qed.

Lemma appendBadge_appends (badgeItem : value) (header header' : list node) :
  appendBadge badgeItem header = Ok header' ->
  exists added, header' = header ++ added.
Proof.
  rewrite appendBadge_frame.
  destruct (appendBadge badgeItem []) as [nodes|e]; cbn [bind];
    [|discriminate].
  intros [= <-]. eauto.
Qed.

Lemma forEach_appendBadge_appends (badges : list value)
  (header header' : list node) :
  forEach appendBadge badges header = Ok header' ->
  exists added, header' = header ++ added.
Proof.
  revert header. induction badges as [|b badges IH]; intros header; simpl.
  - intros [= <-]. exists []. now rewrite app_nil_r.
  - destruct (appendBadge b header) as [h1|e] eqn:E; [|discriminate].
    cbn [bind]. intros Hrest.
    destruct (appendBadge_appends _ _ E) as [a1 ->].
    destruct (IH _ Hrest) as [a2 ->].
    exists (a1 ++ a2). now rewrite app_assoc.
Qed.

(** The element of a message that was built: the photo, the time, the name,
    then the badges, each field with its fallback, converted to a
    string. *)
Lemma buildMessage_Ok (textRenderer memberRenderer rendererData : value)
  (messageTypeClass : jstring) (element : node) :
  buildMessage textRenderer memberRenderer rendererData messageTypeClass
  = Ok element ->
  exists photoSrc timeText nameText badges body,
    toString
      (or_else
         (opt_member
            (opt_index0
               (opt_member (opt_member rendererData "authorPhoto")
                  "thumbnails"))
            "url")
         (VStr (lit "placeholder.png"))) = Ok photoSrc /\
    toString
      (or_else
         (opt_member (opt_member rendererData "timestampText") "simpleText")
         (VStr (lit "[no time]"))) = Ok timeText /\
    toString
      (or_else
         (opt_member (opt_member rendererData "authorName") "simpleText")
         (VStr (lit "[unknown author]"))) = Ok nameText /\
    element =
    messageElement messageTypeClass (authorImg (toUSVString photoSrc))
      (timeSpan timeText :: nameSpan nameText :: badges) body.
Proof.
  unfold buildMessage.
  destruct (member rendererData "authorPhoto") as [photo|e] eqn:Ep;
    [|discriminate]. apply member_Ok in Ep as <-.
  destruct (member rendererData "timestampText") as [time|e] eqn:Et;
    [|discriminate]. apply member_Ok in Et as <-.
  destruct (member rendererData "authorName") as [name|e] eqn:En;
    [|discriminate]. apply member_Ok in En as <-.
  destruct (member rendererData "authorBadges") as [bs|e] eqn:Eb;
    [|discriminate]. cbn [bind].
  destruct (toString (or_else _ (VStr (lit "placeholder.png"))))
    as [photoSrc|e] eqn:Ephoto; [|discriminate]. cbn [bind].
  destruct (toString (or_else _ (VStr (lit "[no time]"))))
    as [timeText|e] eqn:Etime; [|discriminate]. cbn [bind].
  destruct (toString (or_else _ (VStr (lit "[unknown author]"))))
    as [nameText|e] eqn:Ename; [|discriminate]. cbn [bind].
  destruct (call_forEach _ appendBadge _) as [header|e] eqn:Eh;
    [|discriminate]. cbn [bind].
  destruct (messageBody textRenderer memberRenderer) as [body|e];
    [|discriminate]. cbn [bind]. intros [= <-].
  unfold call_forEach in Eh.
  destruct (or_else bs (VArr [])) as [| | | | |l|]; try discriminate.
  apply forEach_appendBadge_appends in Eh as [badges ->].
  exists photoSrc, timeText, nameText, badges, body. auto.
Qed.

(** A recognized action builds one message from its [rendererData]. *)
Lemma processAction_displayed (action : value) (st st' : pass) :
  spec_category action = Displayed ->
  processAction action st = Ok st' ->
  exists textRenderer memberRenderer messageTypeClass element,
    buildMessage textRenderer memberRenderer (rendererDataOf action)
      messageTypeClass = Ok element /\
    chat st' = chat st ++ [element].
Proof.
  unfold processAction, spec_category, rendererDataOf, or_else.
  destruct (truthy (opt_member action "addChatItemAction")) eqn:Eadd.
  - rewrite (member_truthy _ "item" Eadd). cbn [bind].
    destruct (truthy (opt_member (opt_member action "addChatItemAction")
                        "item")) eqn:Eitem; cbn [negb]; [|discriminate].
    rewrite !(member_truthy _ _ Eitem). cbn [bind].
    destruct (truthy (opt_member _ "liveChatTextMessageRenderer")) eqn:Et.
    + intros _. unfold showMessage.
      destruct (buildMessage _ _ _ _) as [element|e] eqn:Eb; [|discriminate].
      cbn [bind]. intros [= <-]. cbn [chat]. eauto 6.
    + destruct (truthy (opt_member _ "liveChatMembershipItemRenderer"))
        eqn:Em; [|discriminate].
      intros _. unfold showMessage.
      destruct (buildMessage _ _ _ _) as [element|e] eqn:Eb; [|discriminate].
      cbn [bind]. intros [= <-]. cbn [chat]. eauto 6.
  - destruct (truthy (opt_member action "addLiveChatTickerItemAction"));
      discriminate.
Qed.

End Runs.

(** ** Fallbacks on empty strings *)

Section Fallbacks.

Context {number : Type} {host : Host number}.

#[local] Abbreviation value := (value number).

(** C10, amended. The fields of a recognized item are selected by
    truthiness: an empty author name gives "[unknown author]", an empty
    timestamp "[no time]", an empty first thumbnail URL of the author photo
    the placeholder, and the empty tooltip of a badge that is shown the
    word Badge, as [alt] and as [title]. A run whose text is the empty
    string is never shown as an empty text node: it is handled as a run
    without text, so it is dropped when it has no emoji, and shown as the
    emoji when it has one: as the image of the first thumbnail with the
    alternative text, or as the alternative text in brackets where
    [img.src] reads back empty. *)
Theorem C10_empty_string_fallbacks (action : value) (st st' : pass)
  (Hrecognized : spec_category action = Displayed)
  (Hstep : processAction action st = Ok st') :
  let rendererData := rendererDataOf action in
  (exists element, chat st' = chat st ++ [element] /\
     (opt_member (opt_member rendererData "authorName") "simpleText"
      = VStr [] ->
      exists messageTypeClass photo time badges body,
        element =
        messageElement messageTypeClass photo
          (time :: nameSpan (lit "[unknown author]") :: badges) body) /\
     (opt_member (opt_member rendererData "timestampText") "simpleText"
      = VStr [] ->
      exists messageTypeClass photo name badges body,
        element =
        messageElement messageTypeClass photo
          (timeSpan (lit "[no time]") :: name :: badges) body) /\
     (opt_member
        (opt_index0
           (opt_member (opt_member rendererData "authorPhoto") "thumbnails"))
        "url" = VStr [] ->
      exists messageTypeClass header body,
        element =
        messageElement messageTypeClass (authorImg (lit "placeholder.png"))
          header body)) /\
  (forall badgeItem header src,
     let badgeRenderer := opt_member badgeItem "liveChatAuthorBadgeRenderer" in
     let url :=
       opt_member
         (opt_index0
            (opt_member (opt_member badgeRenderer "customThumbnail")
               "thumbnails"))
         "url" in
     truthy url = true ->
     toString url = Ok src ->
     opt_member badgeRenderer "tooltip" = VStr [] ->
     appendBadge badgeItem header =
     Ok (header ++
         [authorBadge (toUSVString src) (lit "Badge") (lit "Badge")])) /\
  (forall run target,
     let emoji := opt_member run "emoji" in
     let url :=
       opt_member
         (opt_index0 (opt_member (opt_member emoji "image") "thumbnails"))
         "url" in
     let label :=
       opt_member
         (opt_member (opt_member emoji "accessibility") "accessibilityData")
         "label" in
     let shortcut := opt_index0 (opt_member emoji "shortcuts") in
     opt_member run "text" = VStr [] ->
     (truthy emoji = false -> processRun run target = Ok target) /\
     (truthy emoji = true ->
      processRun run target = showEmoji emoji target /\
      forall src alt,
        toString (or_else url (VStr [])) = Ok src ->
        toString (or_else label (or_else shortcut (VStr (lit "emoji"))))
        = Ok alt ->
        processRun run target =
        Ok (target ++
            [if negb (is_empty (img_src_readback (toUSVString src)))
             then chatEmoji (toUSVString src) alt
             else Text (lit "[" ++ alt ++ lit "]")])) /\
     (forall shown, processRun run target <> Ok (target ++ [Text []] ++ shown))).
Proof.
  intros rendererData. split; [|split].
  - destruct (processAction_displayed action st Hrecognized Hstep)
      as (tr & mr & cls & element & Hbuilt & Hchat).
    exists element. split; [exact Hchat|].
    apply buildMessage_Ok in Hbuilt
      as (photoSrc & timeText & nameText & badges & body &
          Hphoto & Htime & Hname & ->).
    fold rendererData in Hphoto, Htime, Hname. unfold or_else in *.
    split; [|split].
    + intros H. rewrite H in Hname. cbn in Hname.
      injection Hname as <-. eauto 8.
    + intros H. rewrite H in Htime. cbn in Htime.
      injection Htime as <-. eauto 8.
    + intros H. rewrite H in Hphoto. cbn in Hphoto.
      injection Hphoto as <-. eauto 8.
  - intros badgeItem header src badgeRenderer url Hurl Hsrc Htip.
    rewrite (appendBadge_shown badgeItem header Hurl).
    fold badgeRenderer. fold url. rewrite Hsrc, Htip. reflexivity.
  - intros run target emoji url label shortcut Htext.
    assert (Hfalsy : truthy (opt_member run "text") = false)
      by (rewrite Htext; reflexivity).
    split; [|split].
    + intros Hemoji. apply processRun_other; try assumption.
      * intros ->. discriminate Htext.
      * intros ->. discriminate Htext.
    + intros Hemoji.
      rewrite (processRun_emoji run target Hfalsy Hemoji). fold emoji.
      split; [reflexivity|]. intros src alt Hsrc Halt.
      rewrite (showEmoji_truthy emoji target Hemoji).
      unfold emojiSrc, emojiAltText. fold url. fold label. fold shortcut.
      rewrite Hsrc, Halt. reflexivity.
    + intros shown Hrun.
      rewrite processRun_frame in Hrun.
      destruct (truthy emoji) eqn:Hemoji.
      * rewrite (processRun_emoji run [] Hfalsy Hemoji) in Hrun.
        fold emoji in Hrun.
        rewrite (showEmoji_truthy emoji [] Hemoji) in Hrun.
        destruct (toString (emojiSrc emoji)) as [src|e]; [|discriminate].
        cbn [bind] in Hrun.
        destruct (toString (emojiAltText emoji)) as [alt|e];
          [|discriminate].
        cbn [bind app] in Hrun. injection Hrun as Hrun.
        apply app_inv_head in Hrun.
        destruct (negb _); discriminate.
      * rewrite (@processRun_other _ _ run []) in Hrun; try assumption.
        -- cbn [bind] in Hrun. injection Hrun as Hrun.
           rewrite app_nil_r in Hrun.
           rewrite <- (app_nil_r target) in Hrun at 1.
           apply app_inv_head in Hrun. discriminate.
        -- intros ->. discriminate Htext.
        -- intros ->. discriminate Htext.
Qed.

End Fallbacks.

(** ** The samples *)

Import Sample.

(** C9. A null entry in a list of runs is no text and no emoji, and it is
    an error: [run.text] throws, and the whole document ends in the error
    paragraph. The loops over the actions, the badges and the top-level
    items read their entries with [?.] and pass a null entry by. *)
Theorem C9_null_run_raises :
  processMessageRuns (VArr [VNull : value Z]) [] =
    Throw (TypeError (ReadOfNullish (lit "text"))) /\
  (forall rev,
     processChatData rev nullRunText =
     reportError rev (TypeError (ReadOfNullish (lit "text")))) /\
  processAction (VNull : value Z) start =
    Ok {| counts := countOtherAction zero_counters; chat := [] |} /\
  appendBadge (VNull : value Z) [] = Ok [] /\
  extractActions [VNull : value Z] = [].
Proof.
  split; [reflexivity|].
  split; [intros rev; destruct rev; vm_compute; reflexivity|].
  repeat split.
Qed.

(** The summary of the scenario of C6 has a full stop after "messages",
    in each revision, which the sentence of the specification leaves out. *)
Lemma C6_summary_differs :
  displayChatMessages LocalFile threeActions = Ok shownThree /\
  final shownThree =
    {| messageCount := 1; skippedTickerCount := 1;
       skippedOtherActionCount := 0; skippedOtherItemCount := 1 |} /\
  summaryText LocalFile (final shownThree) 3 <>
    lit "Displayed 1 messages (Skipped: 1 ticker, 1 unhandled item types)" /\
  summaryText UrlLoad (final shownThree) 3 <>
    lit "Displayed 1 messages (Skipped: 1 ticker, 1 unhandled item types)" /\
  summaryText ProgressBar (final shownThree) 3 <>
    lit "Displayed 1 messages (Skipped: 1 ticker, 1 unhandled item types)" /\
  container shownThree =
    Children
      [Element (lit "p") [] []
         [Text (lit "Displayed 1 messages. (Skipped: 1 ticker, 1 unhandled item types)")];
       textNode].
Proof.
  split; [vm_compute; reflexivity|]. split; [reflexivity|].
  repeat split; try (intros H; vm_compute in H; discriminate H).
Qed.


(** A run with the empty text and an emoji is shown, not dropped. *)
Lemma C10_empty_text_emoji_shown :
  opt_member emptyTextEmojiRun "text" = VStr [] /\
  processMessageRuns (VArr [emptyTextEmojiRun]) [] =
    Ok [chatEmoji (lit "x.png") (lit ":x:")] /\
  processMessageRuns (VArr [emptyTextEmojiRun]) [] <> Ok [].
Proof.
  split; [reflexivity|]. split; [vm_compute; reflexivity|].
  intros H. vm_compute in H. discriminate H.
Qed.

(** The theorems at the samples. *)


Lemma C2_repair_concatenated_witness :
  is_empty (trim (litq " {'a':1} {'b':2} ")) = false /\
  isLikelyValidArray (trim (litq " {'a':1} {'b':2} ")) = false /\
  preprocess (trim (litq " {'a':1} {'b':2} ")) = litq "[{'a':1},{'b':2}]".
Proof.
  split; [reflexivity|]. split; [reflexivity|].
  destruct (C2_repair_concatenated (host := sample_host) LocalFile
              (litq " {'a':1} {'b':2} ") eq_refl eq_refl) as [H _].
  rewrite H. reflexivity.
Defined.

Lemma C3_repair_idempotent_witness :
  is_empty (trim (litq " [{'a':1}] ")) = false /\
  isLikelyValidArray (trim (litq " [{'a':1}] ")) = true /\
  preprocess (trim (litq " [{'a':1}] ")) = litq "[{'a':1}]".
Proof.
  split; [reflexivity|]. split; [reflexivity|].
  destruct (C3_repair_idempotent (host := sample_host) LocalFile
              (litq " [{'a':1}] ") eq_refl eq_refl) as [H _].
  rewrite H. reflexivity.
Defined.

Lemma C4_empty_input_witness :
  forallb is_whitespace [32; 10; 9; 160; 8202]%N = true /\
  processChatData (host := sample_host) LocalFile [32; 10; 9; 160; 8202]%N =
  displayError (emptyInputMessage LocalFile).
Proof.
  split; [reflexivity|].
  apply (C4_empty_input (host := sample_host) LocalFile). reflexivity.
Defined.

Lemma C5_action_extraction_witness :
  extractActions [topItem] = threeActions /\
  extractActions [continuationItem] = [tickerEntry; textMessage] /\
  extractActions [bothPlacesItem] = [textMessage] /\
  extractActions [topItem; continuationItem; bothPlacesItem] =
    threeActions ++ [tickerEntry; textMessage] ++ [textMessage].
Proof.
  destruct (C5_action_extraction (host := sample_host) LocalFile
              [] [continuationItem; bothPlacesItem] topItem)
    as (_ & Hcons & Hreplay & _).
  destruct (C5_action_extraction (host := sample_host) LocalFile
              [] [bothPlacesItem] continuationItem)
    as (_ & Hcons' & _ & Hcontinuation & _).
  destruct (C5_action_extraction (host := sample_host) LocalFile
              [] [] bothPlacesItem)
    as (_ & _ & Hboth & _).
  assert (H1 : extractActions [topItem] = threeActions)
    by (apply Hreplay; reflexivity).
  assert (H2 : extractActions [continuationItem] = [tickerEntry; textMessage])
    by (apply Hcontinuation; reflexivity).
  assert (H3 : extractActions [bothPlacesItem] = [textMessage])
    by (apply Hboth; reflexivity).
  split; [exact H1|]. split; [exact H2|]. split; [exact H3|].
  rewrite Hcons, Hcons', H1, H2, H3. reflexivity.
Defined.

Lemma C6_summary_scenario_witness :
  Permutation (map spec_category shuffled)
    [Displayed; SkippedTicker; SkippedUnhandledItem] /\
  displayChatMessages LocalFile shuffled = Ok shownShuffled /\
  final shownShuffled =
    {| messageCount := 1; skippedTickerCount := 1;
       skippedOtherActionCount := 0; skippedOtherItemCount := 1 |}.
Proof.
  assert (Hkinds : Permutation (map spec_category shuffled)
                     [Displayed; SkippedTicker; SkippedUnhandledItem]).
  { change (Permutation ([SkippedTicker; SkippedUnhandledItem] ++ [Displayed])
              (Displayed :: [SkippedTicker; SkippedUnhandledItem])).
    apply Permutation_sym, Permutation_cons_append. }
  assert (Hrun : displayChatMessages LocalFile shuffled = Ok shownShuffled)
    by (vm_compute; reflexivity).
  split; [exact Hkinds|]. split; [exact Hrun|].
  exact (proj1 (C6_summary_scenario LocalFile shuffled Hkinds Hrun)).
Defined.

Lemma C7_order_preserved_witness :
  displayChatMessages LocalFile
    ([tickerEntry] ++ textMessage :: [paidMessage] ++
     memberMessage :: [tickerEntry]) = Ok shownOrdered /\
  messagesOf [textMessage] = Ok [textNode] /\
  messagesOf [memberMessage] = Ok [memberNode] /\
  exists pre mid post,
    messagesOf [tickerEntry] = Ok pre /\
    messagesOf [paidMessage] = Ok mid /\
    messagesOf [tickerEntry] = Ok post /\
    container shownOrdered =
    Children
      (summary LocalFile (final shownOrdered) 5
       :: pre ++ textNode :: mid ++ memberNode :: post).
Proof.
  assert (Hrun : displayChatMessages LocalFile
                   ([tickerEntry] ++ textMessage :: [paidMessage] ++
                    memberMessage :: [tickerEntry]) = Ok shownOrdered)
    by (vm_compute; reflexivity).
  assert (HA : messagesOf [textMessage] = Ok [textNode])
    by (vm_compute; reflexivity).
  assert (HB : messagesOf [memberMessage] = Ok [memberNode])
    by (vm_compute; reflexivity).
  split; [exact Hrun|]. split; [exact HA|]. split; [exact HB|].
  exact (C7_order_preserved LocalFile [tickerEntry] [paidMessage] [tickerEntry]
           textMessage memberMessage Hrun HA HB).
Defined.

Lemma C10_empty_string_fallbacks_witness :
  spec_category emptyFieldsMessage = Displayed /\
  processAction emptyFieldsMessage start = Ok afterEmptyFields /\
  exists element, chat afterEmptyFields = chat start ++ [element].
Proof.
  assert (Hkind : spec_category emptyFieldsMessage = Displayed)
    by reflexivity.
  assert (Hstep : processAction emptyFieldsMessage start = Ok afterEmptyFields)
    by (vm_compute; reflexivity).
  split; [exact Hkind|]. split; [exact Hstep|].
  destruct (C10_empty_string_fallbacks emptyFieldsMessage start Hkind Hstep)
    as [(element & Hchat & _) _].
  exists element. exact Hchat.
Defined.

(** * Further properties of the script *)

(** ** Whitespace around the text *)

Lemma trimStart_app_whitespace (w s : jstring) :
  forallb is_whitespace w = true -> trimStart (w ++ s) = trimStart s.
Proof.
  induction w as [|c w IH]; simpl; intros H; [reflexivity|].
  apply andb_true_iff in H as [Hc Hw]. rewrite Hc. auto.
Qed.

Lemma trimStart_app_kept (s w : jstring) :
  trimStart s <> [] -> trimStart (s ++ w) = trimStart s ++ w.
Proof.
  induction s as [|c s IH]; simpl; intros H; [now elim H|].
  destruct (is_whitespace c); [auto | reflexivity].
Qed.

Lemma trimStart_empty_whitespace (s : jstring) :
  trimStart s = [] -> forallb is_whitespace s = true.
Proof.
  induction s as [|c s IH]; simpl; intros H; [reflexivity|].
  destruct (is_whitespace c); [auto | discriminate H].
Qed.

Lemma forallb_rev {A : Type} (f : A -> bool) (l : list A) :
  forallb f (rev l) = forallb f l.
Proof.
  induction l as [|x l IH]; simpl; [reflexivity|].
  rewrite forallb_app, IH. simpl. rewrite andb_true_r. apply andb_comm.
Qed.

Lemma trimEnd_app_whitespace (s w : jstring) :
  forallb is_whitespace w = true -> trimEnd (s ++ w) = trimEnd s.
Proof.
  intros H. unfold trimEnd. rewrite rev_app_distr.
  rewrite trimStart_app_whitespace; [reflexivity|].
  now rewrite forallb_rev.
Qed.

Lemma trim_surrounded (w1 t w2 : jstring) :
  forallb is_whitespace w1 = true -> forallb is_whitespace w2 = true ->
  trim (w1 ++ t ++ w2) = trim t.
Proof.
  intros H1 H2. unfold trim. rewrite trimStart_app_whitespace by exact H1.
  destruct (trimStart t) as [|c r] eqn:Et.
  - rewrite trimStart_whitespace; [reflexivity|].
    rewrite forallb_app, H2, (trimStart_empty_whitespace t Et). reflexivity.
  - rewrite trimStart_app_kept by (rewrite Et; discriminate).
    rewrite Et. apply trimEnd_app_whitespace, H2.
Qed.

(** What [trim] leaves starts with no whitespace. *)
Lemma trimStart_head (s : jstring) (c : N) (r : jstring) :
  trimStart s = c :: r -> is_whitespace c = false.
Proof.
  induction s as [|x s IH]; simpl; [discriminate|].
  destruct (is_whitespace x) eqn:Ex; [exact IH|].
  intros [= <- _]. exact Ex.
Qed.

Section Whitespace.

Context {number : Type} {host : Host number}.

Variable rev : revision.

(** X1. Whitespace before and after the text changes nothing: the text is
    trimmed to the same string and the container ends the same. *)
Theorem X1_surrounding_whitespace (before rawText after : jstring)
  (Hbefore : forallb is_whitespace before = true)
  (Hafter : forallb is_whitespace after = true) :
  trim (before ++ rawText ++ after) = trim rawText /\
  processChatData rev (before ++ rawText ++ after) =
  processChatData rev rawText.
Proof.
  pose proof (trim_surrounded before rawText after Hbefore Hafter) as H.
  split; [exact H|]. unfold processChatData. rewrite H. reflexivity.
Qed.

End Whitespace.

(** ** No separator is left *)

Lemma rbrace_no_whitespace (c : N) :
  N.eqb c rbrace = true -> is_whitespace c = false /\ N.eqb c lbrace = false.
Proof. intros H. apply N.eqb_eq in H. subst c. split; reflexivity. Qed.

(** The repaired text starts a match where the text did. *)
Lemma matchSeparator_replaceFrom (s : jstring) :
  matchSeparator (replaceFrom 0 s) = matchSeparator s.
Proof.
  induction s as [|c r IH]; [reflexivity|].
  change (replaceFrom 0 (c :: r))
    with (if N.eqb c rbrace then
            match matchSeparator r with
            | Some n => lit "},{" ++ replaceFrom (S n) r
            | None => c :: replaceFrom 0 r
            end
          else c :: replaceFrom 0 r).
  destruct (N.eqb c rbrace) eqn:Ec.
  - destruct (rbrace_no_whitespace c Ec) as [Hw Hl].
    simpl. rewrite Hl, Hw.
    destruct (matchSeparator r); simpl; [reflexivity|].
    rewrite Hl, Hw. reflexivity.
  - simpl. rewrite IH. reflexivity.
Qed.

Lemma hasSeparator_replaceFrom (n : nat) :
  forall s, List.length s <= n -> hasSeparator (replaceFrom 0 s) = false.
Proof.
  induction n as [|n IH]; intros s Hlen.
  - destruct s; [reflexivity | simpl in Hlen; lia].
  - destruct s as [|c r]; [reflexivity|]. simpl in Hlen.
    change (replaceFrom 0 (c :: r))
      with (if N.eqb c rbrace then
              match matchSeparator r with
              | Some k => lit "},{" ++ replaceFrom (S k) r
              | None => c :: replaceFrom 0 r
              end
            else c :: replaceFrom 0 r).
    destruct (N.eqb c rbrace) eqn:Ec.
    + destruct (matchSeparator r) as [k|] eqn:Em.
      * destruct (matchSeparator_Some r Em) as (w & v & -> & Hw & <-).
        rewrite replaceFrom_skip.
        change (hasSeparator (lit "},{" ++ replaceFrom 0 v))
          with (hasSeparator (replaceFrom 0 v)).
        apply IH. rewrite length_app in Hlen. simpl in Hlen. lia.
      * simpl. rewrite Ec, matchSeparator_replaceFrom, Em. simpl.
        apply IH. lia.
    + simpl. rewrite Ec. simpl. apply IH. lia.
Qed.

Lemma hasSeparator_found (u w v : jstring) :
  forallb is_whitespace w = true ->
  hasSeparator (u ++ rbrace :: w ++ lbrace :: v) = true.
Proof.
  intros Hw. induction u as [|c u IH]; simpl.
  - rewrite (matchSeparator_whitespace w v Hw). reflexivity.
  - rewrite IH. apply orb_true_r.
Qed.

(** X2. After the replacement no [}], whitespace, [{] is left in the text,
    so replacing again changes nothing. *)
Theorem X2_no_separator_left (s : jstring) :
  (forall u w v, forallb is_whitespace w = true ->
     replaceSeparators s <> u ++ rbrace :: w ++ lbrace :: v) /\
  replaceSeparators (replaceSeparators s) = replaceSeparators s.
Proof.
  assert (Hfree : forall u w v, forallb is_whitespace w = true ->
            replaceSeparators s <> u ++ rbrace :: w ++ lbrace :: v).
  { intros u w v Hw Heq.
    pose proof (hasSeparator_replaceFrom (n := List.length s) s (le_n _)) as H.
    unfold replaceSeparators in Heq. rewrite Heq in H.
    rewrite (hasSeparator_found u w v Hw) in H. discriminate H. }
  split; [exact Hfree|].
  apply replaceSeparators_none. intros u w v Heq Hw.
  exact (Hfree u w v Hw Heq).
Qed.

(** ** What a pass leaves *)

Section Passes.

Context {number : Type} {host : Host number}.

Variable rev : revision.

#[local] Abbreviation value := (value number).

(** A recognized action runs [showMessage] on its [rendererData], which is
    truthy. *)
Lemma processAction_shows (action : value) :
  spec_category action = Displayed ->
  truthy (rendererDataOf action) = true /\
  exists textRenderer memberRenderer messageTypeClass,
    forall st,
      processAction action st =
      showMessage textRenderer memberRenderer (rendererDataOf action)
        messageTypeClass st.
Proof.
  unfold processAction, spec_category, rendererDataOf, or_else.
  destruct (truthy (opt_member action "addChatItemAction")) eqn:Eadd.
  - rewrite (member_truthy _ "item" Eadd). cbn [bind].
    destruct (truthy (opt_member (opt_member action "addChatItemAction")
                        "item")) eqn:Eitem; cbn [negb]; [|discriminate].
    rewrite !(member_truthy _ _ Eitem). cbn [bind].
    destruct (truthy (opt_member _ "liveChatTextMessageRenderer")) eqn:Et.
    + intros _. split; [first [exact Et | reflexivity] | eauto].
    + destruct (truthy (opt_member _ "liveChatMembershipItemRenderer"))
        eqn:Em; [|discriminate].
      intros _. split; [first [exact Em | reflexivity] | eauto].
  - destruct (truthy (opt_member action "addLiveChatTickerItemAction"));
      discriminate.
Qed.

(** Whether an action throws, and what, does not depend on the state. *)
Lemma processAction_Throw (action : value) (st : pass) (e : js_error) :
  processAction action st = Throw e ->
  forall st0, processAction action st0 = Throw e.
Proof.
  intros H st0.
  destruct (spec_category action) eqn:Ek;
    try (rewrite processAction_skipped in H by (rewrite Ek; discriminate);
         discriminate H).
  destruct (processAction_shows action Ek) as (_ & tr & mr & cls & Hshow).
  rewrite Hshow in *. unfold showMessage in *.
  destruct (buildMessage tr mr (rendererDataOf action) cls);
    [discriminate H | exact H].
Qed.
(** One action adds as many messages as it counts, each of the shape of a
    message. *)
Lemma processAction_messages (action : value) (st st' : pass) :
  processAction action st = Ok st' ->
  exists added,
    chat st' = chat st ++ added /\
    Forall is_message added /\
    List.length added + messageCount (counts st) = messageCount (counts st').
Proof.
  intros H.
  destruct (spec_category action) eqn:Ek;
    try (rewrite processAction_skipped in H by (rewrite Ek; discriminate);
         injection H as <-; rewrite Ek; cbn [chat counts count_in];
         exists []; rewrite app_nil_r;
         split; [reflexivity|]; split; [constructor | reflexivity]).
  destruct (processAction_displayed action st Ek H)
    as (tr & mr & cls & element & Hbuilt & Hchat).
  destruct (processAction_effect _ _ H) as [added0 Heffect].
  pose proof (Heffect st) as Hst. rewrite H in Hst. injection Hst as Hst.
  apply (f_equal counts) in Hst. cbn [counts] in Hst.
  rewrite Ek in Hst. cbn [count_in] in Hst.
  exists [element]. split; [exact Hchat|]. split.
  - constructor; [|constructor].
    apply buildMessage_Ok in Hbuilt
      as (photoSrc & timeText & nameText & badges & body & _ & _ & _ & ->).
    unfold is_message. eauto 10.
  - rewrite Hst. reflexivity.
Qed.

Lemma forEach_processAction_messages (actions : list value) (st st' : pass) :
  forEach processAction actions st = Ok st' ->
  exists added,
    chat st' = chat st ++ added /\
    Forall is_message added /\
    List.length added + messageCount (counts st) = messageCount (counts st').
Proof.
  revert st. induction actions as [|a actions IH]; intros st; simpl.
  - intros [= <-]. exists []. rewrite app_nil_r.
    split; [reflexivity|]. split; [constructor | reflexivity].
  - destruct (processAction a st) as [s1|e] eqn:Ea; [|discriminate].
    cbn [bind]. intros Hrest.
    destruct (processAction_messages _ _ Ea) as (m1 & H1 & F1 & L1).
    destruct (IH _ Hrest) as (m2 & H2 & F2 & L2).
    exists (m1 ++ m2). rewrite H2, H1, app_assoc.
    split; [reflexivity|]. split; [apply Forall_app; auto|].
    rewrite length_app. lia.
Qed.

Lemma parseAndDisplay_Ok (text : jstring) (shown : display) :
  parseAndDisplay rev text = Ok shown ->
  exists items,
    JSON_parse text = inr (VArr items) /\
    displayChatMessages rev (extractActions items) = Ok shown.
Proof.
  unfold parseAndDisplay, parse.
  destruct (JSON_parse text) as [message|v]; [discriminate|].
  destruct v; cbn [bind]; try discriminate. eauto.
Qed.

(** The shape of what a pass over actions leaves. *)
Lemma displayChatMessages_shape (actions : list value) (shown : display) :
  displayChatMessages rev actions = Ok shown ->
  actions <> [] ->
  exists messages,
    container shown =
    Children (summary rev (final shown) (List.length actions) :: messages) /\
    List.length messages = messageCount (final shown) /\
    Forall is_message messages.
Proof.
  unfold displayChatMessages. destruct actions as [|a actions].
  - intros _ H. now elim H.
  - cbn [List.length Nat.eqb].
    destruct (forEach processAction (a :: actions) _) as [st|e] eqn:Erun;
      [|discriminate].
    cbn [bind]. intros [= <-] _. cbn [container final].
    destruct (forEach_processAction_messages _ _ Erun) as (ms & Hc & F & L).
    cbn [chat counts zero_counters messageCount] in Hc, L.
    exists ms. rewrite Hc. split; [reflexivity|]. split; [lia | exact F].
Qed.

(** X3. Whatever the text, the container ends in one of three states: an
    error paragraph, the paragraph saying that no actions were found, or the
    summary followed by as many messages as were counted as displayed, each
    a message element; the counters then add up to the number of actions,
    which is not zero. Nothing else, in particular no messages without the
    summary, is ever left. *)
Theorem X3_outcomes (rawText : jstring) :
  (exists message, processChatData rev rawText = displayError message) \/
  processChatData rev rawText = InnerHTML (noActionsMarkup rev) \/
  (exists c n messages,
     processChatData rev rawText = Children (summary rev c n :: messages) /\
     List.length messages = messageCount c /\
     Forall is_message messages /\
     total c = n /\ 0 < n).
Proof.
  unfold processChatData.
  destruct (is_empty (trim rawText)); [left; eauto|].
  destruct (parseAndDisplay rev (preprocess (trim rawText)))
    as [shown|e] eqn:Erun; cbn [tryCatch].
  - apply parseAndDisplay_Ok in Erun as (items & _ & Hrun).
    destruct (extractActions items) as [|a actions] eqn:Eacts.
    + right. left. unfold displayChatMessages in Hrun. simpl in Hrun.
      injection Hrun as <-. reflexivity.
    + right. right.
      destruct (displayChatMessages_shape Hrun) as (ms & Hc & L & F);
        [discriminate|].
      destruct (displayChatMessages_Ok _ _ Hrun) as [Hfinal _].
      exists (final shown), (List.length (a :: actions)), ms.
      rewrite Hc. split; [reflexivity|]. split; [exact L|].
      split; [exact F|]. split; [|simpl; lia].
      rewrite Hfinal. unfold tally. rewrite total_fold, length_map.
      reflexivity.
  - left. unfold reportError. eauto.
Qed.

End Passes.

(** ** Errors, and documents without actions *)

Section Errors.

Context {number : Type} {host : Host number}.

Variable rev : revision.

#[local] Abbreviation value := (value number).

(** X4. A text that is not blank and that the parser refuses, after the
    repair, ends in the error paragraph that quotes the message of the
    parser, and in nothing else. *)
Theorem X4_syntax_error (rawText message : jstring)
  (Hnonblank : is_empty (trim rawText) = false)
  (Hrefused : JSON_parse (preprocess (trim rawText)) = inl message) :
  processChatData rev rawText =
  InnerHTML
    (litq "<p class='error'>" ++
     (lit "Error parsing JSON: " ++ message ++ lit ". The " ++
      inputNoun rev ++
      lit " might be corrupted or have an unexpected format." ++
      lit " Check console for more details.") ++
     lit "</p>").
Proof.
  unfold processChatData. rewrite Hnonblank.
  unfold parseAndDisplay, parse. rewrite Hrefused. cbn [bind tryCatch].
  unfold reportError, displayError. rewrite <- !app_assoc. reflexivity.
Qed.

Lemma extractActions_nothing (items : list value) :
  Forall (fun item =>
            (truthy (replayActions item) = false /\
             (truthy (continuationActions item) = false \/
              continuationActions item = VArr [])) \/
            replayActions item = VArr []) items ->
  extractActions items = [].
Proof.
  unfold extractActions, flatMap, actionsOf, or_else.
  induction 1 as [|item items Hitem _ IH]; simpl; [reflexivity|].
  rewrite IH, app_nil_r.
  destruct Hitem as [[Hr [Hc | Hc]] | Hr].
  - rewrite Hr. cbn iota. rewrite Hc. reflexivity.
  - rewrite Hr. cbn iota. rewrite Hc. reflexivity.
  - rewrite Hr. reflexivity.
Qed.

(** X5. A document whose items hold no actions (neither place, or an empty
    list) ends in the paragraph saying that no chat actions were found:
    no summary and no counters are shown. *)
Theorem X5_no_actions (rawText : jstring) (items : list value)
  (Hnonblank : is_empty (trim rawText) = false)
  (Hparsed : JSON_parse (preprocess (trim rawText)) = inr (VArr items))
  (Hnone :
     Forall (fun item =>
               (truthy (replayActions item) = false /\
                (truthy (continuationActions item) = false \/
                 continuationActions item = VArr [])) \/
               replayActions item = VArr []) items) :
  processChatData rev rawText = InnerHTML (noActionsMarkup rev).
Proof.
  unfold processChatData. rewrite Hnonblank.
  unfold parseAndDisplay, parse. rewrite Hparsed. cbn [bind].
  rewrite (extractActions_nothing Hnone). reflexivity.
Qed.

(** X6. In a pass that returns on at least one action, the head of the
    summary is "Displayed n messages." when a message was displayed and the
    sentence that nothing displayable was found otherwise: the branch for
    "No chat actions found" is never taken. *)
Theorem X6_summary_head (actions : list value) (shown : display)
  (Hrun : displayChatMessages rev actions = Ok shown)
  (Hsome : actions <> []) :
  summaryHead rev (final shown) (List.length actions) =
  if messageCount (final shown) =? 0
  then match rev with
       | LocalFile =>
           lit "Processed " ++ of_nat (List.length actions) ++
           lit " actions, but found no displayable messages."
       | _ => lit "Processed data, but found no displayable messages."
       end
  else lit "Displayed " ++ of_nat (messageCount (final shown)) ++
       lit " messages.".
Proof.
  destruct (displayChatMessages_Ok _ _ Hrun) as [Hfinal _].
  assert (Htotal : total (final shown) = List.length actions).
  { rewrite Hfinal. unfold tally. rewrite total_fold, length_map.
    reflexivity. }
  assert (Hlen : 0 < List.length actions).
  { destruct actions; [now elim Hsome | simpl; lia]. }
  unfold summaryHead, total in *.
  destruct (final shown) as [m t a i]. cbn [messageCount skippedTickerCount
    skippedOtherActionCount skippedOtherItemCount] in *.
  destruct (Nat.eqb_spec m 0) as [-> | Hm]; cbn [andb].
  - destruct rev.
    + destruct (Nat.ltb_spec 0 (List.length actions)); [reflexivity | lia].
    + destruct t, a, i; simpl in *; try reflexivity; lia.
    + destruct t, a, i; simpl in *; try reflexivity; lia.
  - destruct rev; [|reflexivity|reflexivity].
    destruct (Nat.eqb_spec (List.length actions) 0); [lia | reflexivity].
Qed.

Lemma forEach_processAction_Throw (before after : list value)
  (action : value) (shownBefore : list node) (e : js_error) :
  messagesOf before = Ok shownBefore ->
  messagesOf [action] = Throw e ->
  forall st, forEach processAction (before ++ action :: after) st = Throw e.
Proof.
  unfold messagesOf. intros Hbefore Haction st.
  destruct (forEach processAction before _) as [s0|e0] eqn:E0;
    [|discriminate].
  destruct (forEach_processAction_effect _ _ E0) as [added Heffect].
  rewrite forEach_app, Heffect. cbn [bind forEach].
  simpl in Haction.
  destruct (processAction action _) as [s1|e1] eqn:E1; [discriminate|].
  cbn [bind] in Haction. injection Haction as ->.
  rewrite (processAction_Throw _ _ E1). reflexivity.
Qed.

(** X7. The first action that throws ends the pass: the counters and the
    messages of the actions before it are dropped, and the document ends in
    the error paragraph for that error alone. *)
Theorem X7_first_throw_ends_pass (before after : list value)
  (action : value) (shownBefore : list node) (e : js_error)
  (Hbefore : messagesOf before = Ok shownBefore)
  (Haction : messagesOf [action] = Throw e) :
  displayChatMessages rev (before ++ action :: after) = Throw e /\
  (forall rawText items,
     is_empty (trim rawText) = false ->
     JSON_parse (preprocess (trim rawText)) = inr (VArr items) ->
     extractActions items = before ++ action :: after ->
     processChatData rev rawText = reportError rev e).
Proof.
  assert (Hrun : displayChatMessages rev (before ++ action :: after)
                 = Throw e).
  { unfold displayChatMessages.
    rewrite (forEach_processAction_Throw before after action Hbefore Haction).
    destruct before; reflexivity. }
  split; [exact Hrun|].
  intros rawText items Hnonblank Hparsed Hactions.
  unfold processChatData. rewrite Hnonblank.
  unfold parseAndDisplay, parse. rewrite Hparsed. cbn [bind].
  rewrite Hactions, Hrun. reflexivity.
Qed.

(** X8. A recognized item whose [authorBadges] is truthy and no array makes
    the pass throw a TypeError, whatever else it holds: when the photo
    URL, the time and the name convert to strings, the pass gets as far as
    [authorBadges.forEach], which is no function; when the photo URL does
    not convert, it throws before, at [authorImg.src]. (The runs of a
    message, in contrast, may be anything: what is no array is skipped.) *)
Theorem X8_badges_not_an_array (action : value) :
  let rendererData := rendererDataOf action in
  let badges := opt_member rendererData "authorBadges" in
  let authorPhotoUrl :=
    or_else
      (opt_member
         (opt_index0
            (opt_member (opt_member rendererData "authorPhoto") "thumbnails"))
         "url")
      (VStr (lit "placeholder.png")) in
  let timestampText :=
    or_else
      (opt_member (opt_member rendererData "timestampText") "simpleText")
      (VStr (lit "[no time]")) in
  let authorNameText :=
    or_else (opt_member (opt_member rendererData "authorName") "simpleText")
      (VStr (lit "[unknown author]")) in
  spec_category action = Displayed ->
  truthy badges = true ->
  (forall l, badges <> VArr l) ->
  (exists cause, messagesOf [action] = Throw (TypeError cause)) /\
  (forall photoSrc timeText nameText,
     toString authorPhotoUrl = Ok photoSrc ->
     toString timestampText = Ok timeText ->
     toString authorNameText = Ok nameText ->
     messagesOf [action] = Throw (TypeError (NotAFunction (lit "forEach")))) /\
  (forall e, toString authorPhotoUrl = Throw e ->
     messagesOf [action] = Throw (TypeError NoPrimitiveValue)) /\
  (forall runs target, (forall l, runs <> VArr l) ->
     processMessageRuns runs target = Ok []).
Proof.
  intros rendererData badges authorPhotoUrl timestampText authorNameText
    Hkind Htruthy Hnot.
  destruct (processAction_shows action Hkind)
    as (Hrd & tr & mr & cls & Hshow).
  fold rendererData in Hrd, Hshow.
  assert (Hpass : messagesOf [action] =
                  let* photoSrc := toString authorPhotoUrl in
                  let* timeText := toString timestampText in
                  let* nameText := toString authorNameText in
                  Throw (TypeError (NotAFunction (lit "forEach")))).
  { unfold messagesOf. cbn [forEach]. rewrite Hshow.
    unfold showMessage, buildMessage.
    rewrite !(member_truthy _ _ Hrd). cbn [bind].
    fold badges. fold authorPhotoUrl. fold timestampText.
    fold authorNameText.
    destruct (toString authorPhotoUrl); cbn [bind]; [|reflexivity].
    destruct (toString timestampText); cbn [bind]; [|reflexivity].
    destruct (toString authorNameText); cbn [bind]; [|reflexivity].
    assert (Hor : or_else badges (VArr []) = badges)
      by (unfold or_else; rewrite Htruthy; reflexivity).
    rewrite Hor. unfold call_forEach.
    destruct badges as [| | | | |l|]; try reflexivity.
    now elim (Hnot l). }
  rewrite Hpass. repeat split.
  - destruct (toString authorPhotoUrl) as [photoSrc|e] eqn:Ep; cbn [bind];
      [|rewrite (toString_Throw _ Ep); eauto].
    destruct (toString timestampText) as [timeText|e] eqn:Et; cbn [bind];
      [|rewrite (toString_Throw _ Et); eauto].
    destruct (toString authorNameText) as [nameText|e] eqn:En; cbn [bind];
      [|rewrite (toString_Throw _ En); eauto].
    eauto.
  - intros photoSrc timeText nameText -> -> ->. reflexivity.
  - intros e H. rewrite H. cbn [bind]. now rewrite (toString_Throw _ H).
  - intros runs target H. destruct runs as [| | | | |l|]; try reflexivity.
    now elim (H l).
Qed.

End Errors.

(** ** Badges, runs and bodies *)

Section Rendering.

Context {number : Type} {host : Host number}.

#[local] Abbreviation value := (value number).

(** A loop whose callback adds to the end of a list adds to any list what
    it adds to the empty one. *)
Lemma forEach_frame_bind {A : Type}
  (f : A -> list node -> result (list node))
  (Hframe : forall x target,
      f x target = let* nodes := f x [] in Ok (target ++ nodes))
  (l : list A) (target : list node) :
  forEach f l target =
  let* nodes := forEach f l [] in Ok (target ++ nodes).
Proof.
  revert target. induction l as [|x l IH]; intros target; cbn [forEach bind].
  - now rewrite app_nil_r.
  - rewrite Hframe. destruct (f x []) as [n|e]; cbn [bind app]; [|reflexivity].
    rewrite (IH (target ++ n)), (IH n).
    destruct (forEach f l []) as [m|e]; cbn [bind]; [|reflexivity].
    now rewrite app_assoc.
Qed.

Lemma processMessageRuns_frame (runs : list value) (target : list node) :
  processMessageRuns (VArr runs) target =
  let* nodes := processMessageRuns (VArr runs) [] in Ok (target ++ nodes).
Proof. apply (forEach_frame_bind processRun processRun_frame). Qed.

(** What a run gives alone: nothing, one text node or one image. *)
Lemma processRun_alone (run : value) (nodes : list node) :
  processRun run [] = Ok nodes ->
  nodes = [] \/ (exists data, nodes = [Text data]) \/
  (exists src alt, nodes = [chatEmoji src alt]).
Proof.
  unfold processRun.
  destruct (member run "text") as [text|e]; cbn [bind]; [|discriminate].
  destruct (truthy text).
  - destruct (toString text) as [data|e]; cbn [bind]; [|discriminate].
    intros [= <-]. right. left. eauto.
  - destruct (member run "emoji") as [emoji|e]; cbn [bind]; [|discriminate].
    destruct (truthy emoji); [|intros [= <-]; now left].
    unfold showEmoji.
    destruct (member emoji "image") as [image|e]; cbn [bind]; [|discriminate].
    destruct (toString _) as [src|e]; cbn [bind]; [|discriminate].
    destruct (member emoji "accessibility") as [accessibility|e];
      cbn [bind]; [|discriminate].
    destruct (member emoji "shortcuts") as [shortcuts|e]; cbn [bind];
      [|discriminate].
    destruct (toString _) as [alt|e]; cbn [bind]; [|discriminate].
    destruct (negb _); intros [= <-]; right; [right | left]; eauto.
Qed.

(** X9. The loop over the badges adds after the header, in the order of
    the entries, what each entry adds alone. An entry without a truthy URL
    of a custom thumbnail adds nothing, whatever it is; an entry with one
    adds one [img.author-badge] with the URL and, as [alt] and [title],
    the tooltip or the word Badge, once they are converted to strings. *)
Theorem X9_badges_in_order (badges : list value) (images : list (list node))
  (header : list node)
  (Hbadges : Forall2 (fun badgeItem nodes => appendBadge badgeItem [] = Ok nodes)
               badges images) :
  forEach appendBadge badges header = Ok (header ++ List.concat images) /\
  (forall badgeItem,
     let badgeRenderer := opt_member badgeItem "liveChatAuthorBadgeRenderer" in
     let url :=
       opt_member
         (opt_index0
            (opt_member (opt_member badgeRenderer "customThumbnail")
               "thumbnails"))
         "url" in
     let tooltip :=
       or_else (opt_member badgeRenderer "tooltip") (VStr (lit "Badge")) in
     (truthy url = false -> appendBadge badgeItem [] = Ok []) /\
     (forall src alt,
        truthy url = true -> toString url = Ok src ->
        toString tooltip = Ok alt ->
        appendBadge badgeItem [] = Ok [authorBadge (toUSVString src) alt alt])
     /\
     (forall e,
        truthy url = true -> toString url = Throw e ->
        forall after,
          forEach appendBadge (badges ++ badgeItem :: after) header =
          Throw (TypeError NoPrimitiveValue))).
Proof.
  split; [exact (forEach_frame appendBadge appendBadge_frame header Hbadges)|].
  intros badgeItem badgeRenderer url tooltip. split; [|split].
  - intros Hurl. apply appendBadge_hidden. exact Hurl.
  - intros src alt Hurl Hsrc Halt.
    rewrite (appendBadge_shown badgeItem [] Hurl).
    fold badgeRenderer. fold url. fold tooltip. rewrite Hsrc, Halt.
    reflexivity.
  - intros e Hurl Hsrc after.
    apply (@forEach_frame_Throw _ appendBadge appendBadge_frame badges after
             badgeItem images header _ Hbadges).
    rewrite (appendBadge_shown badgeItem [] Hurl).
    fold badgeRenderer. fold url. rewrite Hsrc. cbn [bind].
    now rewrite (toString_Throw _ Hsrc).
Qed.

(** X10. The runs are appended after the children the target has, in the
    order of the runs: the target ends with what each run gives alone, one
    after the other, and a run gives nothing, one text node or one image.
    The first run that throws alone makes the list throw the same. *)
Theorem X10_runs_append (runs : list value) (added : list (list node))
  (target : list node)
  (Hruns : Forall2 (fun run nodes => processRun run [] = Ok nodes) runs added) :
  processMessageRuns (VArr runs) target = Ok (target ++ List.concat added) /\
  Forall (fun nodes =>
            nodes = [] \/ (exists data, nodes = [Text data]) \/
            (exists src alt, nodes = [chatEmoji src alt])) added /\
  (forall run after e,
     processRun run [] = Throw e ->
     processMessageRuns (VArr (runs ++ run :: after)) target = Throw e) /\
  (forall data, data <> [] ->
     processRun (VObj [(lit "text", VStr data)]) [] = Ok [Text data]) /\
  (forall fields,
     processRun (VObj [(lit "text", VObj ((lit "toString", VNull) :: fields))])
       [] = Throw (TypeError NoPrimitiveValue)).
Proof.
  split; [exact (forEach_frame processRun processRun_frame target Hruns)|].
  split.
  - induction Hruns as [|run nodes runs added Hrun _ IH]; constructor;
      [exact (processRun_alone _ Hrun) | exact IH].
  - split; [|split].
    + intros run after e Hrun.
      exact (@forEach_frame_Throw _ processRun processRun_frame runs after
               run added target e Hruns Hrun).
    + intros [|c data] H; [now elim H | reflexivity].
    + intros fields. reflexivity.
Qed.

(** X11. The body of a membership message with all three parts holds the
    primary header, then the subtext, then the nodes of the message runs,
    once the runs are processed and the subtext is converted; with the
    subtext alone it holds the one subtext line. *)
Theorem X11_membership_body (textRenderer memberRenderer : value)
  (Htext : truthy textRenderer = false)
  (Hmember : truthy memberRenderer = true) :
  let primary :=
    opt_member (opt_member memberRenderer "headerPrimaryText") "runs" in
  let subtext :=
    opt_member (opt_member memberRenderer "headerSubtext") "simpleText" in
  let runs := opt_member (opt_member memberRenderer "message") "runs" in
  let subtextLine := fun text =>
    Element (lit "span") [lit "membership-header-subtext"] []
      (set_textContent text) in
  (forall primaryRuns messageRuns primaryNodes messageNodes text,
     primary = VArr primaryRuns -> runs = VArr messageRuns ->
     truthy subtext = true ->
     processMessageRuns primary [] = Ok primaryNodes ->
     toString subtext = Ok text ->
     processMessageRuns runs [] = Ok messageNodes ->
     messageBody textRenderer memberRenderer =
     Ok (Element (lit "span") [lit "membership-header-primary"] []
           primaryNodes
         :: subtextLine text :: messageNodes)) /\
  (forall text,
     truthy primary = false -> truthy subtext = true ->
     toString subtext = Ok text -> truthy runs = false ->
     messageBody textRenderer memberRenderer = Ok [subtextLine text]) /\
  (forall e,
     truthy primary = false -> truthy subtext = true ->
     toString subtext = Throw e ->
     messageBody textRenderer memberRenderer =
     Throw (TypeError NoPrimitiveValue)).
Proof.
  intros primary subtext runs subtextLine.
  unfold messageBody. rewrite Htext, Hmember.
  rewrite !(member_truthy memberRenderer _ Hmember). cbn [bind].
  fold primary. fold subtext. fold runs. split; [|split].
  - intros primaryRuns messageRuns pn mn text Hp Hr Hs Hpn Htxt Hmn.
    assert (Htp : truthy primary = true) by (rewrite Hp; reflexivity).
    assert (Htr : truthy runs = true) by (rewrite Hr; reflexivity).
    rewrite Htp, Hs, Htr.
    pose proof (opt_member_truthy _ _ Htp) as Hhp.
    pose proof (opt_member_truthy _ _ Hs) as Hhs.
    pose proof (opt_member_truthy _ _ Htr) as Hhm.
    rewrite (member_truthy _ "runs" Hhp). cbn [bind]. fold primary.
    rewrite Hpn. cbn [bind].
    rewrite (member_truthy _ "simpleText" Hhs). cbn [bind]. fold subtext.
    rewrite Htxt. cbn [bind app].
    rewrite (member_truthy _ "runs" Hhm). cbn [bind]. fold runs.
    rewrite Hr in Hmn |- *. rewrite processMessageRuns_frame, Hmn.
    reflexivity.
  - intros text Hp Hs Htxt Hr. rewrite Hp, Hs, Hr. cbn [bind].
    pose proof (opt_member_truthy _ _ Hs) as Hhs.
    rewrite (member_truthy _ "simpleText" Hhs). cbn [bind]. fold subtext.
    rewrite Htxt. reflexivity.
  - intros e Hp Hs Htxt. rewrite Hp, Hs. cbn [bind].
    pose proof (opt_member_truthy _ _ Hs) as Hhs.
    rewrite (member_truthy _ "simpleText" Hhs). cbn [bind]. fold subtext.
    rewrite Htxt. cbn [bind]. now rewrite (toString_Throw _ Htxt).
Qed.

(** X12. Message runs of a membership message that are truthy and no array
    empty the body: the header lines built before are lost. The body is
    empty whenever it is built, and it is built when there are no primary
    runs and the subtext is missing or converts to a string. *)
Theorem X12_membership_body_wiped (textRenderer memberRenderer : value)
  (Htext : truthy textRenderer = false)
  (Hmember : truthy memberRenderer = true)
  (Hruns :
     truthy (opt_member (opt_member memberRenderer "message") "runs") = true)
  (Hnot : forall l,
     opt_member (opt_member memberRenderer "message") "runs" <> VArr l) :
  let subtext :=
    opt_member (opt_member memberRenderer "headerSubtext") "simpleText" in
  (forall body, messageBody textRenderer memberRenderer = Ok body ->
                body = []) /\
  (truthy
     (opt_member (opt_member memberRenderer "headerPrimaryText") "runs")
   = false ->
   truthy subtext = false \/ (exists text, toString subtext = Ok text) ->
   messageBody textRenderer memberRenderer = Ok []).
Proof.
  intros subtext.
  assert (Hwipe : forall target,
            processMessageRuns
              (opt_member (opt_member memberRenderer "message") "runs") target
            = Ok []).
  { intros target.
    destruct (opt_member (opt_member memberRenderer "message") "runs")
      as [| | | | |l|]; try reflexivity. now elim (Hnot l). }
  pose proof (opt_member_truthy _ _ Hruns) as Hhm.
  unfold messageBody. rewrite Htext, Hmember.
  rewrite !(member_truthy memberRenderer _ Hmember). cbn [bind].
  rewrite Hruns. rewrite (member_truthy _ "runs" Hhm).
  fold subtext. split.
  - intros body.
    destruct (if truthy (opt_member (opt_member memberRenderer
                                       "headerPrimaryText") "runs")
              then _ else _) as [b1|e]; cbn [bind]; [|discriminate].
    destruct (if truthy subtext then _ else _) as [b2|e]; cbn [bind];
      [|discriminate].
    rewrite Hwipe. now intros [= <-].
  - intros -> Hsub. cbn [bind].
    destruct (truthy subtext) eqn:Hs.
    + destruct Hsub as [Hsub|[text Htxt]]; [discriminate Hsub|].
      pose proof (opt_member_truthy _ _ Hs) as Hhs.
      rewrite (member_truthy _ "simpleText" Hhs). cbn [bind]. fold subtext.
      rewrite Htxt. cbn [bind]. apply Hwipe.
    + cbn [bind]. apply Hwipe.
Qed.

(** X13. An emoji run whose image has thumbnails becomes an image with the
    URL of the first thumbnail, whatever the later ones are, when that URL
    is a string that reads back from [img.src]; the attribute holds it as
    a USVString; [alt] and [title] are the
    alternative text, the label, else the first shortcut, else the word
    emoji, converted to a string. *)
Theorem X13_first_thumbnail (run thumbnail : value) (rest : list value)
  (url alt : jstring) (target : list node)
  (Htext : truthy (opt_member run "text") = false)
  (Hemoji : truthy (opt_member run "emoji") = true)
  (Hthumbnails :
     opt_member (opt_member (opt_member run "emoji") "image") "thumbnails"
     = VArr (thumbnail :: rest))
  (Hurl : opt_member thumbnail "url" = VStr url)
  (Hreads : img_src_readback (toUSVString url) <> [])
  (Halt :
     toString
       (or_else
          (opt_member
             (opt_member (opt_member (opt_member run "emoji") "accessibility")
                "accessibilityData")
             "label")
          (or_else
             (opt_index0 (opt_member (opt_member run "emoji") "shortcuts"))
             (VStr (lit "emoji")))) = Ok alt) :
  processRun run target = Ok (target ++ [chatEmoji (toUSVString url) alt]).
Proof.
  rewrite (processRun_emoji run target Htext Hemoji).
  rewrite (showEmoji_truthy _ target Hemoji).
  assert (Hsrc : toString (emojiSrc (opt_member run "emoji")) = Ok url).
  { unfold emojiSrc. rewrite Hthumbnails.
    assert (Hfirst : opt_index0 (VArr (thumbnail :: rest)) = thumbnail)
      by reflexivity.
    rewrite Hfirst, Hurl. unfold or_else. simpl.
    destruct url; reflexivity. }
  rewrite Hsrc. cbn [bind]. unfold emojiAltText. rewrite Halt. cbn [bind].
  destruct (img_src_readback (toUSVString url));
    [now elim Hreads | reflexivity].
Qed.

End Rendering.

(** ** The download *)

Lemma receivedBytes_from (chunks : list (list N)) (received : nat) :
  fold_left (fun n chunk => n + List.length chunk) chunks received =
  received + List.length (List.concat chunks).
Proof.
  revert received. induction chunks as [|chunk rest IH]; intros received.
  - simpl. lia.
  - simpl. rewrite IH, length_app. lia.
Qed.

Lemma typedArraySet_next (done chunk : list N) (left : nat) :
  typedArraySet (done ++ repeat 0%N (List.length chunk + left)) chunk
    (List.length done) =
  Some ((done ++ chunk) ++ repeat 0%N left).
Proof.
  unfold typedArraySet.
  rewrite length_app, repeat_length.
  destruct (Nat.leb_spec (List.length done + List.length chunk)
              (List.length done + (List.length chunk + left))) as [_|H];
    [|lia].
  rewrite firstn_app, firstn_all, Nat.sub_diag. cbn [firstn].
  rewrite app_nil_r, repeat_app, (app_assoc done), skipn_app.
  rewrite (skipn_all2 done) by lia.
  replace (List.length done + List.length chunk - List.length done)
    with (List.length chunk) by lia.
  rewrite skipn_app, repeat_length, Nat.sub_diag.
  rewrite skipn_all2 by (rewrite repeat_length; lia).
  reflexivity.
Qed.

(** The loop keeps the bytes copied so far in front of the zeros left. *)
Lemma copyChunks_from (rest : list (list N)) (done : list N) :
  copyChunks rest (done ++ repeat 0%N (List.length (List.concat rest)))
    (List.length done) =
  Some (done ++ List.concat rest, List.length done + List.length (List.concat rest)).
Proof.
  revert done. induction rest as [|chunk rest IH]; intros done.
  - simpl. now rewrite app_nil_r, Nat.add_0_r.
  - cbn [copyChunks List.concat]. rewrite length_app, typedArraySet_next.
    replace (List.length done + List.length chunk)
      with (List.length (done ++ chunk)) by apply length_app.
    rewrite IH, length_app, <- app_assoc. f_equal. f_equal. lia.
Qed.

(** X14. The chunks of a download always fit the array made for them: no
    [set] is out of range, the array ends as the chunks one after the
    other, in the order they came, and the position ends at the number of
    bytes received. *)
Theorem X14_chunks_combined (chunks : list (list N)) :
  combineChunks chunks =
    Some (List.concat chunks, List.length (List.concat chunks)) /\
  receivedBytes chunks = List.length (List.concat chunks).
Proof.
  assert (H : receivedBytes chunks = List.length (List.concat chunks))
    by apply (receivedBytes_from chunks 0).
  split; [|exact H].
  unfold combineChunks. rewrite H.
  exact (copyChunks_from chunks []).
Qed.

(** ** The name shown for a URL *)

Lemma splitSlash_not_nil (s : jstring) : splitSlash s <> [].
Proof.
  destruct s as [|c r]; simpl; [discriminate|].
  destruct (N.eqb c slash); [discriminate|].
  destruct (splitSlash r); discriminate.
Qed.

Lemma join_splitSlash (s : jstring) : join (lit "/") (splitSlash s) = s.
Proof.
  induction s as [|c r IH]; [reflexivity|]. simpl.
  pose proof (splitSlash_not_nil r) as Hne.
  destruct (N.eqb c slash) eqn:Ec.
  - apply N.eqb_eq in Ec. subst c.
    destruct (splitSlash r) as [|part parts]; [now elim Hne|].
    change (join (lit "/") ([] :: part :: parts))
      with (slash :: join (lit "/") (part :: parts)).
    now rewrite IH.
  - destruct (splitSlash r) as [|part parts]; [now elim Hne|].
    destruct parts as [|next parts].
    + simpl in *. now rewrite IH.
    + change (join (lit "/") ((c :: part) :: next :: parts))
        with (c :: join (lit "/") (part :: next :: parts)).
      now rewrite IH.
Qed.

Lemma splitSlash_no_slash (s : jstring) :
  ~ In slash s -> splitSlash s = [s].
Proof.
  induction s as [|c r IH]; simpl; intros H; [reflexivity|].
  destruct (N.eqb c slash) eqn:Ec.
  - apply N.eqb_eq in Ec. subst c. elim H. now left.
  - rewrite IH; [reflexivity|]. intros Hin. apply H. now right.
Qed.

Lemma splitSlash_two (p q : jstring) :
  exists a b rest, splitSlash (p ++ slash :: q) = a :: b :: rest.
Proof.
  induction p as [|c p (a & b & rest & IH)]; simpl.
  - pose proof (splitSlash_not_nil q) as Hne.
    destruct (splitSlash q) as [|b rest]; [now elim Hne | eauto].
  - rewrite IH. destruct (N.eqb c slash); eauto.
Qed.

Lemma lastSegment_after_slash (p q : jstring) :
  ~ In slash q -> lastSegment (p ++ slash :: q) = q.
Proof.
  intros Hq. unfold lastSegment. induction p as [|c p IH]; simpl.
  - rewrite (splitSlash_no_slash q Hq). reflexivity.
  - destruct (splitSlash_two p q) as (a & b & rest & Hsplit).
    rewrite Hsplit in *. destruct (N.eqb c slash); exact IH.
Qed.

Lemma last_slash (s : jstring) :
  In slash s -> exists p q, s = p ++ slash :: q /\ ~ In slash q.
Proof.
  induction s as [|c r IH]; [intros []|]. intros Hin.
  destruct (in_dec N.eq_dec slash r) as [Hr | Hr].
  - destruct (IH Hr) as (p & q & -> & Hq). exists (c :: p), q. auto.
  - destruct Hin as [-> | Hin]; [|contradiction].
    exists [], r. auto.
Qed.

(** X15. The name [handleUrlLoad] shows for a URL, before it is decoded, is
    what follows the last slash of the URL, and the whole URL when it has
    no slash; it holds no slash; the parts of the split, joined by slashes,
    are the URL again. *)
Theorem X15_last_segment (url : jstring) :
  (~ In slash url -> lastSegment url = url) /\
  (forall p q, url = p ++ slash :: q -> ~ In slash q ->
               lastSegment url = q) /\
  ~ In slash (lastSegment url) /\
  join (lit "/") (splitSlash url) = url.
Proof.
  assert (H1 : ~ In slash url -> lastSegment url = url).
  { intros H. unfold lastSegment. now rewrite (splitSlash_no_slash url H). }
  assert (H2 : forall p q, url = p ++ slash :: q -> ~ In slash q ->
                           lastSegment url = q).
  { intros p q -> Hq. now apply lastSegment_after_slash. }
  split; [exact H1|]. split; [exact H2|]. split; [|apply join_splitSlash].
  destruct (in_dec N.eq_dec slash url) as [Hin | Hout].
  - destruct (last_slash url Hin) as (p & q & Heq & Hq).
    now rewrite (H2 p q Heq Hq).
  - now rewrite (H1 Hout).
Qed.

(** ** The selection of a file, and the order of the actions *)

Lemma startsWithText_app (prefix s : jstring) :
  startsWithText prefix (prefix ++ s) = true.
Proof.
  induction prefix as [|c prefix IH]; simpl; [reflexivity|].
  now rewrite N.eqb_refl, IH.
Qed.

Lemma endsWithText_app (s suffix : jstring) :
  endsWithText suffix (s ++ suffix) = true.
Proof.
  unfold endsWithText. rewrite rev_app_distr. apply startsWithText_app.
Qed.

Lemma jstring_eqb_refl (s : jstring) : eqb s s = true.
Proof.
  induction s as [|c s IH]; simpl; [reflexivity|].
  now rewrite N.eqb_refl, IH.
Qed.

Section Selection.

Context {number : Type} {host : Host number}.

Variable rev : revision.

#[local] Abbreviation value := (value number).

(** X16. A chat is shown only for a file that was selected and read, and it
    is the chat of its text; a blank file ends in the empty-input error;
    the warning about the type is given for neither a file of type
    application/json nor a file whose name ends in .json, and it changes
    nothing of what is shown. *)
Theorem X16_file_selection (selected : option file) (event : read_event) :
  (forall nodes,
     shown (handleFileSelect rev selected event) = Children nodes ->
     exists f rawText,
       selected = Some f /\ event = Loaded rawText /\
       processChatData rev rawText = Children nodes) /\
  (forall f rawText,
     forallb is_whitespace rawText = true ->
     shown (handleFileSelect rev (Some f) (Loaded rawText)) =
     displayError (emptyInputMessage rev)) /\
  (forall type stem,
     warned (handleFileSelect rev
               (Some {| file_type := type;
                        file_name := stem ++ lit ".json" |}) event)
     = false) /\
  (forall name,
     warned (handleFileSelect rev
               (Some {| file_type := lit "application/json";
                        file_name := name |}) event)
     = false) /\
  (forall f g,
     shown (handleFileSelect rev (Some f) event) =
     shown (handleFileSelect rev (Some g) event)).
Proof.
  split; [|split; [|split; [|split]]].
  - intros nodes. destruct selected as [f|]; [|discriminate].
    destruct event as [rawText|]; [|discriminate].
    cbn [handleFileSelect shown]. eauto.
  - intros f rawText Hblank. cbn [handleFileSelect shown].
    unfold processChatData. rewrite (trim_whitespace rawText Hblank).
    reflexivity.
  - intros type stem. cbn [handleFileSelect warned]. unfold warnsAboutType.
    cbn [file_name]. rewrite endsWithText_app. apply andb_false_r.
  - intros name. cbn [handleFileSelect warned]. unfold warnsAboutType.
    cbn [file_type]. now rewrite jstring_eqb_refl.
  - reflexivity.
Qed.

Lemma forEach_processAction_each (actions : list value) (st st' : pass) :
  forEach processAction actions st = Ok st' ->
  Forall (fun a => spec_category a <> Displayed \/
                   exists added, messagesOf [a] = Ok added) actions.
Proof.
  revert st. induction actions as [|a actions IH]; intros st; simpl.
  - constructor.
  - destruct (processAction a st) as [s1|e] eqn:Ea; [|discriminate].
    cbn [bind]. intros Hrest. constructor; [|exact (IH _ Hrest)].
    right. destruct (processAction_effect _ _ Ea) as [added H].
    unfold messagesOf. cbn [forEach]. rewrite H. cbn [bind]. eauto.
Qed.

(** X17. The order of the actions does not matter for the counters and
    the summary: when the pass returns for a sequence, it returns for every
    reordering of it, with the same counters and the same summary text. *)
Theorem X17_order_free_summary (actions reordered : list value)
  (shown : display)
  (Hperm : Permutation actions reordered)
  (Hrun : displayChatMessages rev actions = Ok shown) :
  exists shown',
    displayChatMessages rev reordered = Ok shown' /\
    final shown' = final shown /\
    summaryText rev (final shown') (List.length reordered) =
    summaryText rev (final shown) (List.length actions).
Proof.
  assert (Heach : Forall (fun a => spec_category a <> Displayed \/
                            exists added, messagesOf [a] = Ok added) actions).
  { unfold displayChatMessages in Hrun.
    destruct (List.length actions =? 0) eqn:El.
    - destruct actions; [constructor | discriminate El].
    - destruct (forEach processAction actions _) as [st|e] eqn:E;
        [|discriminate].
      exact (forEach_processAction_each _ _ E). }
  assert (Heach' := Permutation_Forall Hperm Heach).
  destruct (displayChatMessages_returns rev Heach') as [shown' Hrun'].
  exists shown'. split; [exact Hrun'|].
  destruct (displayChatMessages_Ok _ _ Hrun) as [Hfinal _].
  destruct (displayChatMessages_Ok _ _ Hrun') as [Hfinal' _].
  assert (Heq : final shown' = final shown).
  { rewrite Hfinal, Hfinal'. symmetry.
    apply tally_Permutation, Permutation_map, Hperm. }
  split; [exact Heq|].
  now rewrite Heq, (Permutation_length Hperm).
Qed.

End Selection.

(** The further properties at the samples. *)

Import Cases.

Lemma X1_surrounding_whitespace_witness :
  forallb is_whitespace [32; 9]%N = true /\
  forallb is_whitespace [13; 10]%N = true /\
  processChatData (host := sample_host) LocalFile
    ([32; 9]%N ++ nullRunText ++ [13; 10]%N) =
  processChatData (host := sample_host) LocalFile nullRunText.
Proof.
  split; [reflexivity|]. split; [reflexivity|].
  exact (proj2 (X1_surrounding_whitespace (host := sample_host) LocalFile
                  [32; 9]%N nullRunText [13; 10]%N eq_refl eq_refl)).
Defined.

Lemma X4_syntax_error_witness :
  is_empty (trim brokenText) = false /\
  JSON_parse (Host := cases_host) (preprocess (trim brokenText)) =
    inl (lit "Unexpected token o in JSON at position 2") /\
  processChatData (host := cases_host) LocalFile brokenText =
  displayError
    (lit "Error parsing JSON: Unexpected token o in JSON at position 2. The file might be corrupted or have an unexpected format. Check console for more details.").
Proof.
  split; [reflexivity|]. split; [reflexivity|].
  rewrite (X4_syntax_error (host := cases_host) LocalFile brokenText
             eq_refl eq_refl).
  reflexivity.
Defined.

Lemma X5_no_actions_witness :
  is_empty (trim bareObjectsText) = false /\
  JSON_parse (Host := cases_host) (preprocess (trim bareObjectsText)) =
    inr (VArr bareObjects) /\
  processChatData (host := cases_host) ProgressBar bareObjectsText =
  InnerHTML (lit "<p>No chat actions found in the provided data.</p>").
Proof.
  split; [reflexivity|]. split; [reflexivity|].
  apply (X5_no_actions (host := cases_host) ProgressBar bareObjectsText
           (items := bareObjects) eq_refl eq_refl).
  repeat constructor.
Defined.

Lemma X6_summary_head_witness :
  displayChatMessages LocalFile threeActions = Ok shownThree /\
  threeActions <> [] /\
  summaryHead LocalFile (final shownThree) 3 = lit "Displayed 1 messages.".
Proof.
  assert (Hrun : displayChatMessages LocalFile threeActions = Ok shownThree)
    by (vm_compute; reflexivity).
  assert (Hsome : threeActions <> []) by discriminate.
  split; [exact Hrun|]. split; [exact Hsome|].
  exact (X6_summary_head LocalFile Hrun Hsome).
Defined.

Lemma X7_first_throw_ends_pass_witness :
  messagesOf [textMessage] = Ok [textNode] /\
  messagesOf [nullRunMessage] =
    Throw (TypeError (ReadOfNullish (lit "text"))) /\
  displayChatMessages LocalFile
    ([textMessage] ++ nullRunMessage :: [tickerEntry]) =
  Throw (TypeError (ReadOfNullish (lit "text"))).
Proof.
  assert (Hbefore : messagesOf [textMessage] = Ok [textNode])
    by (vm_compute; reflexivity).
  assert (Haction : messagesOf [nullRunMessage] =
                    Throw (TypeError (ReadOfNullish (lit "text"))))
    by (vm_compute; reflexivity).
  split; [exact Hbefore|]. split; [exact Haction|].
  exact (proj1 (X7_first_throw_ends_pass LocalFile [textMessage]
                  [tickerEntry] nullRunMessage Hbefore Haction)).
Defined.

Lemma X8_badges_not_an_array_witness :
  spec_category badBadgesMessage = Displayed /\
  truthy (opt_member (rendererDataOf badBadgesMessage) "authorBadges")
  = true /\
  messagesOf [badBadgesMessage] =
  Throw (TypeError (NotAFunction (lit "forEach"))).
Proof.
  split; [reflexivity|]. split; [reflexivity|].
  assert (Hnot : forall l,
            opt_member (rendererDataOf badBadgesMessage) "authorBadges"
            <> VArr l) by (intros l H; discriminate H).
  destruct (X8_badges_not_an_array badBadgesMessage eq_refl eq_refl Hnot)
    as (_ & H & _).
  exact (H _ _ _ eq_refl eq_refl eq_refl).
Defined.

Lemma X9_badges_in_order_witness :
  Forall2 (fun badgeItem nodes => appendBadge badgeItem [] = Ok nodes)
    [VNull; emptyBadge; VNum 3%Z; smileBadge]
    [[]; [authorBadge (lit "b.png") (lit "Badge") (lit "Badge")]; [];
     [authorBadge (lit "s.png") (lit "Member") (lit "Member")]] /\
  forEach appendBadge [VNull; emptyBadge; VNum 3%Z; smileBadge]
    [Text (lit "old")] =
  Ok [Text (lit "old");
      authorBadge (lit "b.png") (lit "Badge") (lit "Badge");
      authorBadge (lit "s.png") (lit "Member") (lit "Member")].
Proof.
  assert (H : Forall2
                (fun badgeItem nodes => appendBadge badgeItem [] = Ok nodes)
                [VNull; emptyBadge; VNum 3%Z; smileBadge]
                [[]; [authorBadge (lit "b.png") (lit "Badge") (lit "Badge")];
                 [];
                 [authorBadge (lit "s.png") (lit "Member") (lit "Member")]])
    by (repeat constructor).
  split; [exact H|].
  exact (proj1 (X9_badges_in_order [Text (lit "old")] H)).
Defined.

Lemma X10_runs_append_witness :
  Forall2 (fun run nodes => processRun run [] = Ok nodes)
    [obj [("text"%string, str "hi")]; obj []; smileRun;
     obj [("text"%string, str "!")]]
    [[Text (lit "hi")]; [];
     [chatEmoji (lit "small.png") (lit ":smile:")]; [Text (lit "!")]] /\
  processMessageRuns
    (VArr [obj [("text"%string, str "hi")]; obj []; smileRun;
           obj [("text"%string, str "!")]])
    [Text (lit "old")] =
  Ok [Text (lit "old"); Text (lit "hi");
      chatEmoji (lit "small.png") (lit ":smile:"); Text (lit "!")] /\
  processMessageRuns
    (VArr [obj [("text"%string, str "hi")]; obj []; smileRun;
           obj [("text"%string, str "!")]; objectTextRun; smileRun])
    [Text (lit "old")] =
  Throw (TypeError NoPrimitiveValue).
Proof.
  assert (H : Forall2 (fun run nodes => processRun run [] = Ok nodes)
                [obj [("text"%string, str "hi")]; obj []; smileRun;
                 obj [("text"%string, str "!")]]
                [[Text (lit "hi")]; [];
                 [chatEmoji (lit "small.png") (lit ":smile:")];
                 [Text (lit "!")]])
    by (repeat constructor).
  split; [exact H|].
  destruct (X10_runs_append [Text (lit "old")] H) as (Hall & _ & Hthrow & _).
  split; [exact Hall|].
  exact (Hthrow objectTextRun [smileRun] _ eq_refl).
Defined.

Lemma X11_membership_body_witness :
  truthy (VUndefined : value Z) = false /\
  truthy subtextMember = true /\
  truthy fullMember = true /\
  messageBody VUndefined subtextMember =
    Ok [Element (lit "span") [lit "membership-header-subtext"] []
          [Text (lit "New member")]] /\
  messageBody VUndefined fullMember =
    Ok [Element (lit "span") [lit "membership-header-primary"] []
          [Text (lit "Member")];
        Element (lit "span") [lit "membership-header-subtext"] []
          [Text (lit "for 2 months")];
        Text (lit "hello");
        chatEmoji (lit "small.png") (lit ":smile:")].
Proof.
  split; [reflexivity|]. split; [reflexivity|]. split; [reflexivity|].
  split.
  - exact (proj1 (proj2 (X11_membership_body (VUndefined : value Z)
                           subtextMember eq_refl eq_refl))
             _ eq_refl eq_refl eq_refl eq_refl).
  - exact (proj1 (X11_membership_body (VUndefined : value Z) fullMember
                    eq_refl eq_refl)
             _ _ _ _ _ eq_refl eq_refl eq_refl eq_refl eq_refl eq_refl).
Defined.

Lemma X12_membership_body_wiped_witness :
  truthy (VUndefined : value Z) = false /\
  truthy wipedMember = true /\
  truthy (opt_member (opt_member wipedMember "message") "runs") = true /\
  messageBody VUndefined wipedMember = Ok [].
Proof.
  split; [reflexivity|]. split; [reflexivity|]. split; [reflexivity|].
  assert (Hnot : forall l,
            opt_member (opt_member wipedMember "message") "runs" <> VArr l)
    by (intros l H; discriminate H).
  refine (proj2 (X12_membership_body_wiped (VUndefined : value Z) wipedMember
                   eq_refl eq_refl eq_refl Hnot) eq_refl _).
  right. exists (lit "New member"). reflexivity.
Defined.

Lemma X13_first_thumbnail_witness :
  truthy (opt_member smileRun "text") = false /\
  truthy (opt_member smileRun "emoji") = true /\
  img_src_readback (lit "small.png") <> [] /\
  processRun smileRun [] =
  Ok [chatEmoji (lit "small.png") (lit ":smile:")].
Proof.
  assert (Hreads : img_src_readback (lit "small.png") <> [])
    by discriminate.
  split; [reflexivity|]. split; [reflexivity|]. split; [exact Hreads|].
  exact (X13_first_thumbnail smileRun [] eq_refl eq_refl eq_refl eq_refl
           Hreads eq_refl).
Defined.

Lemma X17_order_free_summary_witness :
  Permutation threeActions shuffled /\
  displayChatMessages LocalFile threeActions = Ok shownThree /\
  exists shown',
    displayChatMessages LocalFile shuffled = Ok shown' /\
    final shown' = final shownThree.
Proof.
  assert (Hperm : Permutation threeActions shuffled)
    by apply (Permutation_cons_append [tickerEntry; paidMessage] textMessage).
  assert (Hrun : displayChatMessages LocalFile threeActions = Ok shownThree)
    by (vm_compute; reflexivity).
  split; [exact Hperm|]. split; [exact Hrun|].
  destruct (X17_order_free_summary LocalFile Hperm Hrun)
    as (shown' & Hrun' & Hfinal & _).
  exists shown'. split; [exact Hrun' | exact Hfinal].
Defined.
